(** * n8n Kubernetes version manager: identity, configuration and snapshot core

    A shallow embedding of the deployment and snapshot orchestration code of
    the repository (the FastAPI backend in [web-ui/api], the shell scripts in
    [scripts/], and the name validation of the deploy form), followed by the
    properties proved about it.

    Conventions of the embedding:
    - Python [str] and shell strings are [string] (sequences of bytes);
    - Python [int] is [Z] (unbounded); shell arithmetic is [Z] wrapped to
      signed 64 bits;
    - a Python call that may raise returns an [outcome];
    - external programs ([kubectl], the shell scripts run by the backend,
      [yaml.safe_load]) are parameters of the functions that call them, and
      the calls made are recorded in a trace where a property speaks about
      them. *)

From Stdlib Require Import String Ascii List ZArith NArith Lia Bool.
From Stdlib Require Import DecimalString DecimalN DecimalPos.
Import ListNotations.

Local Open Scope string_scope.
Local Open Scope Z_scope.

(* ================================================================== *)
(** * Part I: definitions                                              *)
(* ================================================================== *)

(** ** Python values the backend relies on *)

Module Py.

(** Exceptions that the modelled code can see.  [HTTPException] is what the
    endpoints raise for an internal error; it carries the status code and
    the exception it was built from ([detail=str(e)]). *)
Inductive exn : Type :=
| ValueError
| IndexError
| YAMLError
| OSError
| HTTPException (status : Z) (cause : exn).

Inductive outcome (A : Type) : Type :=
| Returns (a : A)
| Raises (e : exn).
Arguments Returns {A} a.
Arguments Raises {A} e.

Definition bind {A B} (m : outcome A) (k : A -> outcome B) : outcome B :=
  match m with
  | Returns a => k a
  | Raises e => Raises e
  end.

Declare Scope py_scope.
Delimit Scope py_scope with py.
Notation "x <- m ;; k" := (bind m (fun x => k))
  (at level 61, m at next level, right associativity) : py_scope.

(** *** Characters *)

Definition code (c : ascii) : N := N_of_ascii c.

Definition is_digit (c : ascii) : bool :=
  (48 <=? code c)%N && (code c <=? 57)%N.

Definition digit_value (c : ascii) : N := (code c - 48)%N.

(** Whitespace as [str.strip()] and [int()] see it, on 7-bit input:
    tab, LF, VT, FF, CR, the separators FS, GS, RS, US, and space. *)
Definition is_space (c : ascii) : bool :=
  ((9 <=? code c)%N && (code c <=? 13)%N)
  || ((28 <=? code c)%N && (code c <=? 32)%N).

Fixpoint string_all (p : ascii -> bool) (s : string) : bool :=
  match s with
  | EmptyString => true
  | String c r => p c && string_all p r
  end.

(** *** [str] methods *)

(** [s.replace(old, new)] for one-character [old] and [new]. *)
Fixpoint str_replace (old new : ascii) (s : string) : string :=
  match s with
  | EmptyString => EmptyString
  | String c r =>
      String (if Ascii.eqb c old then new else c) (str_replace old new r)
  end.

(** [s.split(sep)] for a one-character [sep]: always at least one field. *)
Fixpoint str_split (sep : ascii) (s : string) : list string :=
  match s with
  | EmptyString => [EmptyString]
  | String c r =>
      if Ascii.eqb c sep then EmptyString :: str_split sep r
      else match str_split sep r with
           | [] => [String c EmptyString]
           | f :: fs => String c f :: fs
           end
  end.

Fixpoint lstrip (s : string) : string :=
  match s with
  | EmptyString => EmptyString
  | String c r => if is_space c then lstrip r else s
  end.

Fixpoint rstrip (s : string) : string :=
  match s with
  | EmptyString => EmptyString
  | String c r =>
      match rstrip r with
      | EmptyString => if is_space c then EmptyString else String c EmptyString
      | r' => String c r'
      end
  end.

(** [s.strip()] *)
Definition strip (s : string) : string := rstrip (lstrip s).

(** [xs[i]] on a list *)
Definition index {A} (xs : list A) (i : nat) : outcome A :=
  match nth_error xs i with
  | Some x => Returns x
  | None => Raises IndexError
  end.

(** *** [int(s)] and [str(n)] *)

(** The digits of an [int()] argument after the sign: decimal digits, with
    single underscores allowed between digits.  [seen] tells whether the
    previous character was a digit. *)
Fixpoint int_body (s : string) (acc : N) (seen : bool) : option N :=
  match s with
  | EmptyString => if seen then Some acc else None
  | String c r =>
      if is_digit c then int_body r (10 * acc + digit_value c)%N true
      else if Ascii.eqb c "_" then
             if seen then int_body r acc false else None
           else None
  end.

Definition py_int (s : string) : outcome Z :=
  let t := strip s in
  let '(sign, body) :=
    match t with
    | String "+" r => (1, r)
    | String "-" r => (-1, r)
    | _ => (1, t)
    end in
  match int_body body 0%N false with
  | Some n => Returns (sign * Z.of_N n)
  | None => Raises ValueError
  end.

(** Decimal rendering of a natural number and of an [int] (what an f-string
    or [str()] prints). *)
Definition str_of_N (n : N) : string :=
  NilEmpty.string_of_uint (N.to_uint n).

Definition py_str (z : Z) : string :=
  if z <? 0 then String "-" (str_of_N (Z.abs_N z)) else str_of_N (Z.to_N z).

(** *** [subprocess.run] *)

Record proc_call : Type := mk_call {
  argv : list string;
  cwd : option string;
  input : option string
}.

Record completed : Type := mk_completed {
  returncode : Z;
  stdout : string;
  stderr : string
}.

(** A process runner: what [subprocess.run(..., capture_output=True,
    text=True)] does with a call, either a completed process or an
    exception (for instance when the program cannot be started). *)
Definition runner : Type := proc_call -> outcome completed.

(** A computation together with the processes it started, in order. *)
Definition traced (A : Type) : Type := list proc_call * A.

Definition subprocess_run (run : runner) (call : proc_call)
  : traced (outcome completed) :=
  ([call], run call).

Definition pure {A} (a : A) : traced A := ([], a).

Definition then_ {A B} (m : traced A) (k : A -> traced B) : traced B :=
  let '(t1, a) := m in
  let '(t2, b) := k a in
  ((t1 ++ t2)%list, b).

End Py.

Import Py.
Local Open Scope py_scope.

(** ** [web-ui/api/versions.py]: [deploy_version]

    As written in the Web UI implementation plan (Task 2, "Create versions
    API"): the request has no custom name. *)

Module Versions.

Record DeployRequest : Type := mk_deploy_request {
  version : string;
  mode : string;
  isolated_db : bool
}.

Inductive deploy_response : Type :=
| DeployFailed (error output : string)
| DeployInitiated (namespace url output : string).

Definition deploy_cmd (request : DeployRequest) : list string :=
  let mode_flag := if String.eqb (mode request) "queue" then "--queue"
                   else "--regular" in
  ["/workspace/scripts/deploy-version.sh"; version request; mode_flag]
    ++ (if isolated_db request then ["--isolated-db"] else []).

(** "Calculate namespace and URL from version" *)
Definition namespace_of (version : string) : string :=
  "n8n-v" ++ str_replace "." "-" version.

Definition port_of (version : string) : outcome Z :=
  let version_parts := str_split "." version in
  p0 <- index version_parts 0 ;;
  major <- py_int p0 ;;
  p1 <- index version_parts 1 ;;
  minor <- py_int p1 ;;
  Returns (30000 + (major * 100) + minor).

Definition url_of (port : Z) : string := "http://localhost:" ++ py_str port.

(** [deploy_version]: the whole body is under [try ... except Exception as
    e: raise HTTPException(status_code=500, detail=str(e))]. *)
Definition deploy_version (run : runner) (request : DeployRequest)
  : outcome deploy_response :=
  let body :=
    result <- run (mk_call (deploy_cmd request) (Some "/workspace") None) ;;
    if negb (returncode result =? 0) then
      Returns (DeployFailed (stderr result) (stdout result))
    else
      let namespace := namespace_of (version request) in
      port <- port_of (version request) ;;
      Returns (DeployInitiated namespace (url_of port) (stdout result)) in
  match body with
  | Returns r => Returns r
  | Raises e => Raises (HTTPException 500 e)
  end.

(** The version argument and the namespace slug of a version triple, in
    decimal. *)
Definition version_string (major minor patch : N) : string :=
  str_of_N major ++ "." ++ str_of_N minor ++ "." ++ str_of_N patch.

Definition version_slug (major minor patch : N) : string :=
  str_of_N major ++ "-" ++ str_of_N minor ++ "-" ++ str_of_N patch.

End Versions.

(** ** Shell utilities used by the scripts *)

Module Shell.

(** Shell arithmetic [$(( ))] is signed 64-bit and wraps around. *)
Definition wrap64 (z : Z) : Z :=
  (z + 2 ^ 63) mod 2 ^ 64 - 2 ^ 63.

Definition sh_add (a b : Z) : Z := wrap64 (a + b).
Definition sh_mul (a b : Z) : Z := wrap64 (a * b).

(** [[ -n "$X" ]] *)
Definition nonempty (s : string) : bool :=
  match s with
  | EmptyString => false
  | String _ _ => true
  end.

(** *** [echo -n "$X"]

    The builtin treats a leading argument as an option when it is a dash
    followed by one or more of the letters n, e, E; such an argument is
    consumed and not printed.  Any other argument is printed as it is. *)
Definition is_echo_flag (c : ascii) : bool :=
  Ascii.eqb c "n" || Ascii.eqb c "e" || Ascii.eqb c "E".

Definition is_echo_option (s : string) : bool :=
  match s with
  | String "-" (String c r) => string_all is_echo_flag (String c r)
  | _ => false
  end.

Definition echo_n (arg : string) : string :=
  if is_echo_option arg then EmptyString else arg.

(** *** [cksum]: the POSIX CRC of the input and its length

    32-bit registers are [Z] masked to 32 bits. *)
Definition mask32 : Z := 4294967295.
Definition crc_poly : Z := 79764919. (* 0x04C11DB7 *)

Definition crc_shift (c : Z) : Z :=
  if Z.testbit c 31
  then Z.land (Z.lxor (Z.shiftl c 1) crc_poly) mask32
  else Z.land (Z.shiftl c 1) mask32.

(** Entry [i] of the table: [i] moved to the top byte, reduced eight times. *)
Definition crctab (i : Z) : Z :=
  Nat.iter 8 crc_shift (Z.shiftl i 24).

Definition crc_byte (crc : Z) (b : Z) : Z :=
  Z.lxor (Z.land (Z.shiftl crc 8) mask32)
         (crctab (Z.lxor (Z.shiftr crc 24) (Z.land b 255))).

Fixpoint crc_bytes (crc : Z) (s : string) : Z :=
  match s with
  | EmptyString => crc
  | String c r => crc_bytes (crc_byte crc (Z.of_N (N_of_ascii c))) r
  end.

(** The length is fed after the data, least significant byte first, until
    nothing is left of it. *)
Fixpoint crc_length (fuel : nat) (crc : Z) (n : Z) : Z :=
  match fuel with
  | O => crc
  | S fuel' =>
      if n =? 0 then crc
      else crc_length fuel' (crc_byte crc (Z.land n 255)) (Z.shiftr n 8)
  end.

Definition cksum (s : string) : Z :=
  let n := Z.of_nat (String.length s) in
  let crc := crc_length (S (Z.to_nat (Z.log2 n))) (crc_bytes 0 s) n in
  Z.land (Z.lnot crc) mask32.

End Shell.

(** ** [scripts/deploy-version.sh]: namespace, release name and port

    The fragment given in the Web UI enhancements plan (Task 2, "Add
    conditional namespace logic" and "Add namespace validation"). *)

Module DeployScript.
Import Shell.

Record identity : Type := mk_identity {
  NAMESPACE : string;
  RELEASE_NAME : string;
  PORT : Z
}.

(** The variables the fragment reads.  [VERSION_SLUG], [MAJOR] and [MINOR]
    are set from the version argument by an earlier part of the script. *)
Record vars : Type := mk_vars {
  CUSTOM_NAME : string;
  VERSION_SLUG : string;
  MAJOR : Z;
  MINOR : Z
}.

(** [echo -n "$CUSTOM_NAME" | cksum | awk '{print 30000 + ($1 % 1000)}'] *)
Definition hashed_port (name : string) : Z :=
  30000 + Z.rem (cksum (echo_n name)) 1000.

Definition derive (v : vars) : identity :=
  if nonempty (CUSTOM_NAME v) then
    mk_identity (CUSTOM_NAME v) (CUSTOM_NAME v) (hashed_port (CUSTOM_NAME v))
  else
    mk_identity ("n8n-v" ++ VERSION_SLUG v) ("n8n-v" ++ VERSION_SLUG v)
                (sh_add (sh_add 30000 (sh_mul (MAJOR v) 100)) (MINOR v)).

(** What the fragment does to the cluster and to its caller. *)
Inductive event : Type :=
| KubectlGetNamespace (ns : string)
| Echo (line : string)
| Exit (status : Z).


End DeployScript.

(** ** [web-ui/api/versions.py]: Helm values from the custom values form

    [build_helm_values] and [deep_merge] of the custom values plan (Task 3).
    Mapping keys are strings, as the keys written by [build_helm_values]
    and the keys of a Helm values document are. *)

Module HelmValues.

#[local] Set Warnings "-register-all".

(** A YAML / Python value.  A [dict] is the list of its items in insertion
    order; a Python dict never holds a key twice ([wf_value]). *)
Inductive value : Type :=
| VNone
| VBool (b : bool)
| VInt (z : Z)
| VStr (s : string)
| VOther (tag repr : string)   (* float, timestamp, binary *)
| VList (xs : list value)
| VDict (items : list (string * value)).

Definition dict : Type := list (string * value).

Definition is_dict (v : value) : bool :=
  match v with
  | VDict _ => true
  | _ => false
  end.

(** [d.get(k)] / [k in d] *)
Fixpoint dict_get (k : string) (d : dict) : option value :=
  match d with
  | [] => None
  | (k', v) :: rest => if String.eqb k k' then Some v else dict_get k rest
  end.

(** [d[k] = v]: an existing key keeps its place, a new key goes last. *)
Fixpoint dict_set (k : string) (v : value) (d : dict) : dict :=
  match d with
  | [] => [(k, v)]
  | (k', v') :: rest =>
      if String.eqb k k' then (k, v) :: rest
      else (k', v') :: dict_set k v rest
  end.

Fixpoint unique_keys (ks : list string) : bool :=
  match ks with
  | [] => true
  | k :: rest => negb (existsb (String.eqb k) rest) && unique_keys rest
  end.

Fixpoint wf_value (v : value) : bool :=
  match v with
  | VDict items =>
      unique_keys (map fst items)
      && forallb (fun kv => wf_value (snd kv)) items
  | VList xs => forallb wf_value xs
  | _ => true
  end.

(** [deep_merge(base, override)]: the loop over [override.items()], started
    from [result = base.copy()].  The override is passed as a value so that
    the recursive call is on one of its items. *)
Fixpoint merge_into (result : dict) (override : value) {struct override} : dict :=
  match override with
  | VDict items =>
      fold_left
        (fun result kv =>
           let '(key, value) := kv in
           match dict_get key result, value with
           | Some (VDict r), VDict _ =>
               dict_set key (VDict (merge_into r value)) result
           | _, _ => dict_set key value result
           end)
        items result
  | _ => result
  end.

Definition deep_merge (base override : dict) : dict :=
  merge_into base (VDict override).

(** One round of the loop, and the value it leaves under the key: the
    merge of two mappings, the override's value otherwise. *)
Definition merge_item (result : dict) (kv : string * value) : dict :=
  let '(key, value) := kv in
  match dict_get key result, value with
  | Some (VDict r), VDict _ => dict_set key (VDict (merge_into r value)) result
  | _, _ => dict_set key value result
  end.

Definition merged_value (old : option value) (new : value) : value :=
  match old, new with
  | Some (VDict r), VDict o => VDict (deep_merge r o)
  | _, _ => new
  end.

Record EnvVar : Type := mk_env { key : string; value_ : string }.

Record ResourceConfig : Type := mk_resources {
  cpu : option string;
  memory : option string
}.

Record CustomValues : Type := mk_custom {
  envVars : option (list EnvVar);
  resources : option ResourceConfig;
  workerReplicas : option Z;
  rawYaml : option string
}.

(** Truth value of an [Optional[str]] *)
Definition truthy (s : option string) : bool :=
  match s with
  | Some t => Shell.nonempty t
  | None => false
  end.

(** [{ev.key: ev.value for ev in envVars}] *)
Definition env_dict (evs : list EnvVar) : dict :=
  fold_left (fun d ev => dict_set (key ev) (VStr (value_ ev)) d) evs [].

Definition with_env (custom : CustomValues) (values : dict) : dict :=
  match envVars custom with
  | Some (ev :: evs) => dict_set "extraEnv" (VDict (env_dict (ev :: evs))) values
  | _ => values
  end.

(** [if s: d[k] = s] *)
Definition set_if_truthy (k : string) (s : option string) (d : dict) : dict :=
  match s with
  | Some t => if Shell.nonempty t then dict_set k (VStr t) d else d
  | None => d
  end.

Definition limits_of (r : ResourceConfig) : dict :=
  set_if_truthy "memory" (memory r) (set_if_truthy "cpu" (cpu r) []).

Definition with_resources (custom : CustomValues) (values : dict) : dict :=
  match resources custom with
  | Some r =>
      let resources :=
        if truthy (cpu r) || truthy (memory r)
        then [("main", VDict [("limits", VDict (limits_of r))])]
        else [] in
      match resources with
      | [] => values
      | _ => dict_set "resources" (VDict resources) values
      end
  | None => values
  end.

Definition with_replicas (custom : CustomValues) (values : dict) : dict :=
  match workerReplicas custom with
  | Some n => dict_set "replicas" (VDict [("workers", VInt n)]) values
  | None => values
  end.

(** The values built from the structured fields, before the raw override
    is looked at. *)
Definition structured_values (custom : CustomValues) : dict :=
  with_replicas custom (with_resources custom (with_env custom [])).

(** [build_helm_values].  [safe_load] is [yaml.safe_load]: it returns the
    parsed document or raises; the [except] clause catches [YAMLError]
    only. *)
Definition build_helm_values (safe_load : string -> outcome value)
           (custom : CustomValues) : outcome dict :=
  let values := structured_values custom in
  match rawYaml custom with
  | Some text =>
      if Shell.nonempty text then
        match safe_load text with
        | Returns (VDict raw_values) => Returns (deep_merge values raw_values)
        | Returns _ => Returns values
        | Raises YAMLError => Returns values
        | Raises e => Raises e
        end
      else Returns values
  | None => Returns values
  end.

(** [d[k1][k2]...]: the value found by following a path of keys. *)
Fixpoint lookup_path (path : list string) (v : value) : option value :=
  match path with
  | [] => Some v
  | k :: rest =>
      match v with
      | VDict items =>
          match dict_get k items with
          | Some v' => lookup_path rest v'
          | None => None
          end
      | _ => None
      end
  end.

End HelmValues.

(** ** The deploy form: custom name validation and the deploy handler

    [validateName] of the Web UI enhancements plan (Task 4) and
    [handleDeploy] of the custom values plan (Task 5).  JavaScript strings
    are taken as byte strings: a name that passes the first test is plain
    ASCII, so its [length] is its number of bytes. *)

Module DeployForm.

Definition is_lower (c : ascii) : bool :=
  (97 <=? code c)%N && (code c <=? 122)%N.

(** [[a-z0-9]] *)
Definition is_lower_alnum (c : ascii) : bool := is_lower c || is_digit c.

(** [[a-z0-9-]] *)
Definition is_name_char (c : ascii) : bool :=
  is_lower_alnum c || Ascii.eqb c "-".


(** [/^[a-z0-9-]+$/.test(value)] *)
Definition test_all_name_chars (value : string) : bool :=
  Shell.nonempty value && string_all is_name_char value.






(** The request handed to [deployMutation.mutate]; an empty optional field
    is sent as [undefined]. *)
Record request : Type := mk_request {
  req_version : string;
  req_mode : string;
  req_isolated_db : bool;
  req_name : option string;
  req_snapshot : option string;
  req_custom_values : option HelmValues.CustomValues
}.


(** [s || undefined] *)
Definition or_undefined (s : string) : option string :=
  if Shell.nonempty s then Some s else None.

(** "Filter out empty env vars": [envVars?.filter(e => e.key && e.value)] *)
Definition filtered (c : HelmValues.CustomValues) : HelmValues.CustomValues :=
  HelmValues.mk_custom
    (option_map
       (filter (fun e => Shell.nonempty (HelmValues.key e)
                         && Shell.nonempty (HelmValues.value_ e)))
       (HelmValues.envVars c))
    (HelmValues.resources c) (HelmValues.workerReplicas c) (HelmValues.rawYaml c).

(** "Only include custom_values if there's something to send" *)
Definition hasCustomValues (c : HelmValues.CustomValues) : bool :=
  match HelmValues.envVars c with
  | Some (_ :: _) => true
  | _ => false
  end
  || match HelmValues.resources c with
     | Some r => HelmValues.truthy (HelmValues.cpu r)
                 || HelmValues.truthy (HelmValues.memory r)
     | None => false
     end
  || match HelmValues.workerReplicas c with
     | Some _ => true
     | None => false
     end
  || HelmValues.truthy (HelmValues.rawYaml c).



End DeployForm.

(** ** The object-name rule of the specification

    [^[a-z0-9]([a-z0-9-]{0,61}[a-z0-9])?$], written out from the pattern: one
    alphanumeric, optionally followed by at most 61 name characters and a
    final alphanumeric. *)

Module NameRule.
Import DeployForm.

(** [s] without its last character, and that character. *)
Fixpoint split_last (s : string) : option (string * ascii) :=
  match s with
  | EmptyString => None
  | String c r =>
      match split_last r with
      | None => Some (EmptyString, c)
      | Some (m, l) => Some (String c m, l)
      end
  end.

Definition object_name_pattern (s : string) : bool :=
  match s with
  | EmptyString => false
  | String c r =>
      is_lower_alnum c
      && match split_last r with
         | None => true
         | Some (middle, l) =>
             (String.length middle <=? 61)%nat
             && string_all is_name_char middle
             && is_lower_alnum l
         end
  end.

End NameRule.

(** ** [web-ui/api/versions.py]: version of a namespace, removal

    [parse_deployment_info] of the Web UI enhancements plan (Task 3) and
    [remove_version] of the Web UI implementation plan (Task 2).  On byte
    strings [\d] is an ASCII digit. *)

Module NamespaceInfo.

(** *** [re.search(r'n8n-v(\d+)-(\d+)-(\d+)', namespace)] *)

Fixpoint strip_prefix (p s : string) : option string :=
  match p, s with
  | EmptyString, _ => Some s
  | String a p', String b s' => if Ascii.eqb a b then strip_prefix p' s' else None
  | String _ _, EmptyString => None
  end.

(** The longest run of digits at the head of [s], and what follows it. *)
Fixpoint take_digits (s : string) : string * string :=
  match s with
  | String c r =>
      if is_digit c then let '(ds, rest) := take_digits r in (String c ds, rest)
      else (EmptyString, s)
  | EmptyString => (EmptyString, EmptyString)
  end.

(** [(\d+)]: at least one digit, as many as there are. *)
Definition digits1 (s : string) : option (string * string) :=
  match take_digits s with
  | (EmptyString, _) => None
  | (ds, rest) => Some (ds, rest)
  end.

Definition expect (c : ascii) (s : string) : option string :=
  match s with
  | String c' r => if Ascii.eqb c c' then Some r else None
  | EmptyString => None
  end.

(** A match of the pattern starting at the head of [s]. *)
Definition match_here (s : string) : option (string * string * string) :=
  match strip_prefix "n8n-v" s with
  | None => None
  | Some s1 =>
      match digits1 s1 with
      | None => None
      | Some (g1, s2) =>
          match expect "-" s2 with
          | None => None
          | Some s3 =>
              match digits1 s3 with
              | None => None
              | Some (g2, s4) =>
                  match expect "-" s4 with
                  | None => None
                  | Some s5 =>
                      match digits1 s5 with
                      | None => None
                      | Some (g3, _) => Some (g1, g2, g3)
                      end
                  end
              end
          end
      end
  end.

(** The leftmost match anywhere in [s]. *)
Fixpoint version_match (s : string) : option (string * string * string) :=
  match match_here s with
  | Some g => Some g
  | None =>
      match s with
      | String _ r => version_match r
      | EmptyString => None
      end
  end.





(** *** [remove_version] *)

Inductive remove_response : Type :=
| RemovalFailed (error output : string)
| Removed (message output : string).

Definition remove_call (version : string) : proc_call :=
  mk_call ["/workspace/scripts/remove-version.sh"; version]
          (Some "/workspace") None.

Definition remove_version (run : runner) (version : string)
  : outcome remove_response :=
  match run (remove_call version) with
  | Returns result =>
      if negb (returncode result =? 0) then
        Returns (RemovalFailed (stderr result) (stdout result))
      else
        Returns (Removed ("Version " ++ version ++ " removed") (stdout result))
  | Raises e => Raises (HTTPException 500 e)
  end.

End NamespaceInfo.

(** ** [scripts/wait-for-namespace-deletion.sh] and namespace removal *)

Module Removal.

Inductive message : Type :=
| MsgUsage
| MsgAlreadyDeleted (ns : string)
| MsgWaiting (ns : string)
| MsgFullyDeleted (ns : string)
| MsgStillWaiting (elapsed : Z)
| MsgStillExists (ns : string) (max_wait : Z)
| MsgNotFound (ns : string).

Inductive event : Type :=
| KubectlGetNamespace (ns : string)
| KubectlDeleteNamespace (ns : string)
| Sleep (seconds : Z)
| Echo (m : message)
| Exit (status : Z).

(** The cluster as the script sees it: [obs n] is the answer of the [n]-th
    [kubectl get namespace] of a run (does the namespace exist?). *)
Definition cluster : Type := nat -> bool.

Definition MAX_WAIT : Z := 120.

(** The polling loop, "Poll every 2 seconds".  [n] counts the queries made
    so far; [fuel] bounds the iterations and [None] means it ran out. *)
Fixpoint poll (fuel : nat) (obs : cluster) (NAMESPACE : string)
         (n : nat) (ELAPSED : Z) : option (list event) :=
  if ELAPSED <? MAX_WAIT then
    match fuel with
    | O => None
    | S fuel' =>
        if negb (obs n) then
          Some [KubectlGetNamespace NAMESPACE;
                Echo (MsgFullyDeleted NAMESPACE); Exit 0]
        else
          let ELAPSED' := Shell.sh_add ELAPSED 2 in
          let progress :=
            if Z.rem ELAPSED' 10 =? 0 then [Echo (MsgStillWaiting ELAPSED')]
            else [] in
          match poll fuel' obs NAMESPACE (S n) ELAPSED' with
          | Some rest =>
              Some (KubectlGetNamespace NAMESPACE :: Sleep 2 :: progress ++ rest)
          | None => None
          end
    end
  else
    Some [Echo (MsgStillExists NAMESPACE MAX_WAIT); Exit 1].

(** The script, on a cluster where [n0] queries were already made. *)
Definition wait_for_namespace_deletion (obs : cluster) (n0 : nat)
           (NAMESPACE : string) : option (list event) :=
  if negb (Shell.nonempty NAMESPACE) then Some [Echo MsgUsage; Exit 1]
  else if negb (obs n0) then
    Some [KubectlGetNamespace NAMESPACE;
          Echo (MsgAlreadyDeleted NAMESPACE); Exit 0]
  else
    match poll 60 obs NAMESPACE (S n0) 0 with
    | Some rest =>
        Some (KubectlGetNamespace NAMESPACE :: Echo (MsgWaiting NAMESPACE) :: rest)
    | None => None
    end.

Fixpoint exit_status (t : list event) : option Z :=
  match t with
  | [] => None
  | Exit s :: _ => Some s
  | _ :: rest => exit_status rest
  end.

Definition is_sleep (e : event) : bool :=
  match e with Sleep _ => true | _ => false end.

(** The number of times the loop went round and slept. *)
Definition wait_rounds (t : list event) : nat :=
  List.length (filter is_sleep t).

(** Modelled from the spec: [scripts/remove-version.sh] is run by
    [remove_version] but is not among the sources.  Section 4.3:
    "remove(namespace) -> Success | Fails(NotFound): deletes the namespace
    and waits (bounded, e.g. ~120s) for full removal confirmation before
    reporting success"; section 8: "remove(namespace) on a namespace that
    never existed returns Fails(NotFound) without invoking any wait loop".
    The wait is the script above. *)
Definition remove_version_sh (obs : cluster) (NAMESPACE : string)
  : option (list event) :=
  if negb (obs O) then
    Some [KubectlGetNamespace NAMESPACE; Echo (MsgNotFound NAMESPACE); Exit 1]
  else
    match wait_for_namespace_deletion obs 1 NAMESPACE with
    | Some rest =>
        Some (KubectlGetNamespace NAMESPACE
                :: KubectlDeleteNamespace NAMESPACE :: rest)
    | None => None
    end.

(** Modelled from the spec: the line that removal script prints on
    standard error for "Fails(NotFound)". *)
Definition not_found_line (ns : string) : string :=
  "ERROR: Namespace " ++ ns ++ " not found".

(** Modelled from the spec: what [subprocess.run] reports for a run of that
    removal script, its exit status and its standard error. *)
Definition completed_of (NAMESPACE : string) (t : list event) : completed :=
  let status := match exit_status t with Some s => s | None => 0 end in
  let err :=
    if existsb (fun e => match e with Echo (MsgNotFound _) => true | _ => false end) t
    then not_found_line NAMESPACE else EmptyString in
  mk_completed status EmptyString err.

(** Modelled from the spec: the removal script as the process that
    [remove_version] starts, on a cluster [obs]. *)
Definition script_runner (obs : cluster) : runner :=
  fun call =>
    match argv call with
    | [_; ns] =>
        match remove_version_sh obs ns with
        | Some t => Returns (completed_of ns t)
        | None => Raises OSError
        end
    | _ => Raises OSError
    end.

End Removal.

(** ** The snapshot store and the snapshot scripts *)

Module Snapshots.

(** *** The backup volume

    [/backups/] holds the timestamped dumps and the directory
    [snapshots/], which holds the named dumps and their [.meta] files.
    A directory is the list of its files, name and content, in the order
    [ls -1] prints them; [snapshots_dir] is [None] until the directory is
    made. *)
Definition files : Type := list (string * string).

Record store : Type := mk_store {
  backups_files : files;
  snapshots_dir : option files
}.

(** [cmd > file]: the file is replaced, or made. *)
Fixpoint write_file (name content : string) (d : files) : files :=
  match d with
  | [] => [(name, content)]
  | (n, c) :: rest =>
      if String.eqb n name then (name, content) :: rest
      else (n, c) :: write_file name content rest
  end.


(** *** [scripts/create-named-snapshot.sh] *)

Definition is_upper (c : ascii) : bool :=
  (65 <=? code c)%N && (code c <=? 90)%N.

(** [[a-zA-Z0-9_-]] *)
Definition is_label_char (c : ascii) : bool :=
  DeployForm.is_lower c || is_upper c || is_digit c
  || Ascii.eqb c "_" || Ascii.eqb c "-".

(** [[[ "$NAME" =~ ^[a-zA-Z0-9_-]+$ ]]] *)
Definition label_ok (NAME : string) : bool :=
  Shell.nonempty NAME && string_all is_label_char NAME.

(** The Job handed to [kubectl apply], by the variables its manifest is
    built from. *)
Record job : Type := mk_job {
  job_name : string;
  DB_HOST : string;
  DB_NAME : string;
  BACKUP_FILE : string;
  meta_name : string;
  meta_source : string
}.

Inductive message : Type :=
| MsgUsage
| MsgInvalidName
| MsgNamespaceNotFound (ns : string)
| MsgCreating (name source_ns host output : string)
| MsgJobCreated (job : string).

Inductive event : Type :=
| KubectlGetNamespace (ns : string)
| KubectlApply (j : job)
| Echo (m : message)
| Exit (status : Z).

(** What the script reads from outside: the cluster's namespaces, the
    clock ([date +%Y%m%d-%H%M%S]) and whether [kubectl apply] succeeds. *)
Record env : Type := mk_env {
  namespace_exists : string -> bool;
  TIMESTAMP : string;
  apply_ok : bool
}.

(** [SOURCE=${2:-shared}] *)
Definition source_of (arg2 : option string) : string :=
  match arg2 with
  | Some s => if Shell.nonempty s then s else "shared"
  | None => "shared"
  end.

(** The script under [set -e]: its trace ends with the [Exit] that ends
    the run. *)
Definition create_named_snapshot (e : env) (NAME : string)
           (arg2 : option string) : list event :=
  let SOURCE := source_of arg2 in
  if negb (Shell.nonempty NAME) then [Echo MsgUsage; Exit 1]
  else if negb (label_ok NAME) then [Echo MsgInvalidName; Exit 1]
  else
    let shared := String.eqb SOURCE "shared" in
    let DB_HOST :=
      if shared then "postgres.n8n-system.svc.cluster.local"
      else "postgres-" ++ SOURCE ++ "." ++ SOURCE ++ ".svc.cluster.local" in
    let SOURCE_NAMESPACE := if shared then "n8n-system" else SOURCE in
    let check := if shared then [] else [KubectlGetNamespace SOURCE_NAMESPACE] in
    if negb shared && negb (namespace_exists e SOURCE_NAMESPACE) then
      check ++ [Echo (MsgNamespaceNotFound SOURCE_NAMESPACE); Exit 1]
    else
      let BACKUP_FILE := NAME ++ ".sql" in
      let j := mk_job ("snapshot-" ++ NAME ++ "-" ++ TIMESTAMP e)
                      DB_HOST "n8n" BACKUP_FILE NAME SOURCE in
      let announce :=
        Echo (MsgCreating NAME SOURCE_NAMESPACE DB_HOST
                          ("/backups/snapshots/" ++ BACKUP_FILE)) in
      if apply_ok e then
        check ++ [announce; KubectlApply j; Echo (MsgJobCreated (job_name j)); Exit 0]
      else
        check ++ [announce; KubectlApply j; Exit 1].

Fixpoint exit_status (t : list event) : option Z :=
  match t with
  | [] => None
  | Exit s :: _ => Some s
  | _ :: rest => exit_status rest
  end.

Fixpoint applied_job (t : list event) : option job :=
  match t with
  | [] => None
  | KubectlApply j :: _ => Some j
  | _ :: rest => applied_job rest
  end.


(** The Job's container, once the database answers: [mkdir -p], then
    [pg_dump ... > "/backups/snapshots/${BACKUP_FILE}"] and, when the dump
    succeeded, the [.meta] file.  [dump] is what [pg_dump] printed,
    [dump_ok] whether it exited with 0, [created] the container's clock. *)
Definition Q : string := String (ascii_of_nat 34) EmptyString.
Definition NL : string := String (ascii_of_nat 10) EmptyString.

Definition meta_field (k v : string) : string :=
  "  " ++ Q ++ k ++ Q ++ ": " ++ Q ++ v ++ Q.

Definition meta_text (j : job) (created : string) : string :=
  "{" ++ NL
    ++ meta_field "name" (meta_name j) ++ "," ++ NL
    ++ meta_field "created" created ++ "," ++ NL
    ++ meta_field "source" (meta_source j) ++ "," ++ NL
    ++ meta_field "type" "named" ++ NL
    ++ "}" ++ NL.

Definition run_job (j : job) (dump : string) (dump_ok : bool)
           (created : string) (s : store) : store * Z :=
  let dir := match snapshots_dir s with Some d => d | None => [] end in
  let dir := write_file (BACKUP_FILE j) dump dir in
  if dump_ok then
    (mk_store (backups_files s)
              (Some (write_file (BACKUP_FILE j ++ ".meta") (meta_text j created) dir)),
     0)
  else
    (mk_store (backups_files s) (Some dir), 1).

(** *** [scripts/list-snapshots.sh] *)

Fixpoint ends_with (suffix s : string) : bool :=
  String.eqb s suffix
  || match s with
     | String _ r => ends_with suffix r
     | EmptyString => false
     end.

(** [grep '\.sql$'] and [grep -v '\.meta$'] *)
Definition grep_sql (lines : list string) : list string :=
  filter (ends_with ".sql") lines.

Definition grep_v_meta (lines : list string) : list string :=
  filter (fun l => negb (ends_with ".meta" l)) lines.

(** [grep '^n8n-.*\.sql$'] *)
Definition n8n_sql (l : string) : bool :=
  match NamespaceInfo.strip_prefix "n8n-" l with
  | Some rest => ends_with ".sql" rest
  | None => false
  end.

Definition grep_n8n_sql (lines : list string) : list string :=
  filter n8n_sql lines.

Inductive path : Type :=
| Backups      (* "/backups/" *)
| NamedDir.    (* "/backups/snapshots/" *)

(** [list_files]: [kubectl exec ... -- ls -1 "$path" 2>/dev/null || true],
    the names in the directory, nothing when the command fails. *)
Definition list_files (exec_ok : bool) (s : store) (p : path) : list string :=
  if exec_ok then
    match p with
    | Backups =>
        map fst (backups_files s)
            ++ match snapshots_dir s with Some _ => ["snapshots"] | None => [] end
    | NamedDir =>
        match snapshots_dir s with
        | Some d => map fst d
        | None => []
        end
    end
  else [].

Definition list_named (exec_ok : bool) (s : store) : list string :=
  grep_v_meta (grep_sql (list_files exec_ok s NamedDir)).

Definition list_auto (exec_ok : bool) (s : store) : list string :=
  grep_v_meta (grep_n8n_sql (list_files exec_ok s Backups)).

(** [echo "$X" | sed 's/^/  /'], or "  (none)" when [$X] is empty *)
Definition section (lines : list string) : list string :=
  match lines with
  | [] => ["  (none)"]
  | _ => map (fun l => "  " ++ l) lines
  end.

(** The lines the script prints. *)
Definition list_snapshots (exec_ok : bool) (s : store) (MODE : string)
  : list string :=
  if String.eqb MODE "--named-only" then list_named exec_ok s
  else if String.eqb MODE "--auto-only" then list_auto exec_ok s
  else
    ["=== Named Snapshots ==="] ++ section (list_named exec_ok s)
      ++ [""; "=== Timestamped Snapshots ==="]
      ++ section (list_auto exec_ok s).

(** *** [web-ui/api/snapshots.py]: [restore_snapshot] *)

Definition LF : string := String (ascii_of_nat 10) EmptyString.

Inductive restore_response : Type :=
| RestoreFailed (error output : string)
| Restored (message output : string).

Definition restore_call (snapshot : string) : proc_call :=
  mk_call ["/workspace/scripts/restore-snapshot.sh"; snapshot]
          (Some "/workspace")
          (Some ("yes" ++ LF)).

(** [restore_snapshot]: the response, and the processes the endpoint
    started. *)
Definition restore_snapshot (run : runner) (snapshot : string)
  : traced (outcome restore_response) :=
  then_ (subprocess_run run (restore_call snapshot))
        (fun r =>
           pure match r with
                | Returns result =>
                    if negb (returncode result =? 0) then
                      Returns (RestoreFailed (stderr result) (stdout result))
                    else
                      Returns (Restored ("Snapshot " ++ snapshot ++ " restored")
                                        (stdout result))
                | Raises e => Raises (HTTPException 500 e)
                end).

End Snapshots.


(** ** Notions used to state how [deep_merge] treats a path and a nesting *)

Module MergePaths.
Import HelmValues.

(** The override does not reach [path]: following the path through the
    override ends at a missing key, with mappings all the way before it. *)
Fixpoint untouched (path : list string) (override : dict) : bool :=
  match path with
  | [] => false
  | k :: rest =>
      match dict_get k override with
      | None => true
      | Some (VDict o) => untouched rest o
      | Some _ => false
      end
  end.

(** The nesting depth of a value. *)
Fixpoint height (v : value) : nat :=
  match v with
  | VDict items => S (list_max (map (fun kv => height (snd kv)) items))
  | VList xs => S (list_max (map height xs))
  | _ => O
  end.

End MergePaths.

(** ** More of Python's [str] *)

Module PyText.

(** [sub in s] *)
Fixpoint contains (sub s : string) : bool :=
  match NamespaceInfo.strip_prefix sub s with
  | Some _ => true
  | None =>
      match s with
      | String _ r => contains sub r
      | EmptyString => false
      end
  end.

Definition lower_char (c : ascii) : ascii :=
  if Snapshots.is_upper c then ascii_of_N (code c + 32) else c.

(** [s.lower()], on 7-bit text *)
Fixpoint lower (s : string) : string :=
  match s with
  | EmptyString => EmptyString
  | String c r => String (lower_char c) (lower r)
  end.

(** A character that [s.split()] keeps in a word. *)
Definition no_space (c : ascii) : bool := negb (is_space c).

(** [s.split()]: the words between runs of whitespace. *)
Fixpoint split_ws (s : string) : list string :=
  match s with
  | EmptyString => []
  | String c r =>
      if is_space c then split_ws r
      else
        match r with
        | EmptyString => [String c EmptyString]
        | String c' _ =>
            if is_space c' then String c EmptyString :: split_ws r
            else
              match split_ws r with
              | w :: ws => String c w :: ws
              | [] => [String c EmptyString]
              end
        end
  end.

(** [s.replace(old, new)] for a non-empty [old]: the occurrences of [old]
    are found from the left and do not overlap.  [skip] counts the
    characters of an occurrence that are still to be passed over. *)
Fixpoint replace_from (old new : string) (skip : nat) (s : string) : string :=
  match s with
  | EmptyString => EmptyString
  | String c r =>
      match skip with
      | S k => replace_from old new k r
      | O =>
          match NamespaceInfo.strip_prefix old s with
          | Some _ => new ++ replace_from old new (String.length old - 1) r
          | None => String c (replace_from old new 0 r)
          end
      end
  end.

Definition replace_all (old new s : string) : string := replace_from old new 0 s.

(** [s[i:j]] for [0 <= i <= j] *)
Definition slice (i j : nat) (s : string) : string := substring i (j - i) s.

Definition NL : ascii := ascii_of_nat 10.

(** A character that is not the line feed. *)
Definition no_NL (c : ascii) : bool := negb (Ascii.eqb c NL).

End PyText.

(** ** [web-ui/api/versions.py]: [parse_versions_output]

    As written in the Web UI implementation plan (Task 2). *)

Module VersionsList.
Import PyText.

Record entry : Type := mk_entry {
  version : string;
  namespace : string;
  mode : string;
  status : string;
  pods_ready : Z;
  pods_total : Z;
  url : string
}.

(** "Skip header and separator lines" *)
Definition skipped (line : string) : bool :=
  contains "NAMESPACE" line || contains "---" line
  || negb (Shell.nonempty (strip line)).

(** The body of the loop for one line: nothing, an entry, or the
    [ValueError] of [int()]. *)
Definition versions_row (line : string) : outcome (option entry) :=
  if skipped line then Returns None
  else
    match split_ws line with
    | namespace :: mode :: status :: pods :: more =>
        let url := match more with u :: _ => u | [] => EmptyString end in
        match NamespaceInfo.version_match namespace with
        | Some (g1, g2, g3) =>
            let version := g1 ++ "." ++ g2 ++ "." ++ g3 in
            let pod_parts := str_split "/" pods in
            pods_ready <- match pod_parts with
                          | p0 :: _ => py_int p0
                          | [] => Returns 0
                          end ;;
            pods_total <- match pod_parts with
                          | _ :: p1 :: _ => py_int p1
                          | _ => Returns 0
                          end ;;
            Returns (Some (mk_entry version namespace (lower mode) (lower status)
                                    pods_ready pods_total url))
        | None => Returns None
        end
    | _ => Returns None
    end.

(** The loop, with the list built so far. *)
Fixpoint versions_rows (lines : list string) (versions : list entry)
  : outcome (list entry) :=
  match lines with
  | [] => Returns versions
  | line :: rest =>
      match versions_row line with
      | Raises e => Raises e
      | Returns None => versions_rows rest versions
      | Returns (Some v) => versions_rows rest (versions ++ [v])
      end
  end.

Definition parse_versions_output (output : string) : outcome (list entry) :=
  versions_rows (str_split NL (strip output)) [].

End VersionsList.

(** ** [web-ui/api/snapshots.py]: [parse_snapshots_output]

    As written in the Web UI implementation plan (Task 3). *)

Module SnapshotsApi.
Import PyText.

(** [n] digits at the head of [s], and what follows them. *)
Fixpoint take_n_digits (n : nat) (s : string) : option (string * string) :=
  match n with
  | O => Some (EmptyString, s)
  | S n' =>
      match s with
      | String c r =>
          if is_digit c then
            match take_n_digits n' r with
            | Some (ds, rest) => Some (String c ds, rest)
            | None => None
            end
          else None
      | EmptyString => None
      end
  end.

(** [n8n-(\d{8})-(\d{6})] at the head of [s] *)
Definition stamp_here (s : string) : option (string * string) :=
  match NamespaceInfo.strip_prefix "n8n-" s with
  | None => None
  | Some s1 =>
      match take_n_digits 8 s1 with
      | None => None
      | Some (date_str, s2) =>
          match NamespaceInfo.expect "-" s2 with
          | None => None
          | Some s3 =>
              match take_n_digits 6 s3 with
              | None => None
              | Some (time_str, _) => Some (date_str, time_str)
              end
          end
      end
  end.

(** [re.search(r'n8n-(\d{8})-(\d{6})', filename)] *)
Fixpoint stamp_match (s : string) : option (string * string) :=
  match stamp_here s with
  | Some g => Some g
  | None =>
      match s with
      | String _ r => stamp_match r
      | EmptyString => None
      end
  end.

(** "Format: YYYYMMDD-HHMMSS -> YYYY-MM-DD HH:MM:SS" *)
Definition timestamp_of (filename : string) : string :=
  match stamp_match filename with
  | Some (date_str, time_str) =>
      slice 0 4 date_str ++ "-" ++ slice 4 6 date_str ++ "-" ++ slice 6 8 date_str
        ++ " " ++ slice 0 2 time_str ++ ":" ++ slice 2 4 time_str ++ ":"
        ++ slice 4 6 time_str
  | None => "Unknown"
  end.

Record snapshot : Type := mk_snapshot {
  filename : string;
  timestamp : string
}.

(** The body of the loop for one line. *)
Definition snapshot_row (line : string) : list snapshot :=
  if Shell.nonempty (strip line) && Snapshots.ends_with ".sql" line then
    let filename := strip line in
    [mk_snapshot filename (timestamp_of filename)]
  else [].

Definition parse_snapshots_output (output : string) : list snapshot :=
  flat_map snapshot_row (str_split NL (strip output)).

(** What a script that prints [lines] leaves on its standard output. *)
Fixpoint printed (lines : list string) : string :=
  match lines with
  | [] => EmptyString
  | l :: rest => l ++ String NL (printed rest)
  end.

End SnapshotsApi.

(** ** [web-ui/api/available_versions.py]: the release feed and its cache

    [get_available_versions] of the Web UI enhancements plan (Task 7).  Times
    are in microseconds, the resolution of [datetime]. *)

Module ReleaseFeed.
Import PyText.

(** A release record of the feed.  [tag_name] is [None] when the record has
    no such key; [draft] and [prerelease] are the truth values of
    [r.get("draft", False)] and [r.get("prerelease", False)]. *)
Record release : Type := mk_release {
  tag_name : option string;
  draft : bool;
  prerelease : bool
}.

(** The answer of [requests.get]: its status code, and its JSON body when
    [response.json()] does not raise. *)
Record response : Type := mk_response {
  status_code : Z;
  json : option (list release)
}.

(** [_cache] *)
Record cache : Type := mk_cache {
  versions : list string;
  expires : option Z
}.

Definition five_minutes : Z := 5 * 60 * 1000000.

(** [r["tag_name"].replace("n8n@", "").replace("v", "")] *)
Definition version_of_tag (tag : string) : string :=
  replace_all "v" "" (replace_all "n8n@" "" tag).

(** The list comprehension over [releases[:20]]; [None] when a record that
    passes the filter has no [tag_name] (a [KeyError]). *)
Fixpoint versions_of (releases : list release) : option (list string) :=
  match releases with
  | [] => Some []
  | r :: rest =>
      if negb (draft r) && negb (prerelease r) then
        match tag_name r with
        | None => None
        | Some tag =>
            match versions_of rest with
            | Some vs => Some (version_of_tag tag :: vs)
            | None => None
            end
        end
      else versions_of rest
  end.

(** [get_available_versions].  [fetch] is the call to GitHub: [None] when
    [requests.get] raises.  The result tells whether the call was made, the
    versions answered, and the cache afterwards.  Everything between the
    call and the update of the cache is under [try ... except Exception]. *)
Definition get_available_versions (fetch : unit -> option response)
           (now : Z) (c : cache) : bool * list string * cache :=
  let fresh := match expires c with
               | Some e => now <? e
               | None => false
               end in
  if fresh then (false, versions c, c)
  else
    match fetch tt with
    | Some resp =>
        if status_code resp =? 200 then
          match json resp with
          | Some releases =>
              match versions_of (firstn 20 releases) with
              | Some vs => (true, vs, mk_cache vs (Some (now + five_minutes)))
              | None => (true, versions c, c)
              end
          | None => (true, versions c, c)
          end
        else (true, versions c, c)
    | None => (true, versions c, c)
    end.

End ReleaseFeed.

(** ** [scripts/create-snapshot.sh] *)

Module ManualSnapshot.

Record job : Type := mk_job {
  job_name : string;
  BACKUP_FILE : string
}.

Inductive event : Type :=
| KubectlApply (j : job)
| Echo (line : string)
| Exit (status : Z).

(** The script under [set -e]; [TIMESTAMP] is what [date +%Y%m%d-%H%M%S]
    printed, [apply_ok] whether [kubectl apply] succeeded. *)
Definition create_snapshot (TIMESTAMP : string) (apply_ok : bool) : list event :=
  let BACKUP_FILE := "n8n-" ++ TIMESTAMP ++ "-manual.sql" in
  let j := mk_job ("manual-snapshot-" ++ TIMESTAMP) BACKUP_FILE in
  if apply_ok then
    [KubectlApply j; Echo ("Manual snapshot job created: " ++ job_name j); Exit 0]
  else
    [KubectlApply j; Exit 1].

Fixpoint applied_job (t : list event) : option job :=
  match t with
  | [] => None
  | KubectlApply j :: _ => Some j
  | _ :: rest => applied_job rest
  end.

(** The Job's container, once the database answers:
    [pg_dump ... > "/backups/${BACKUP_FILE}"]. *)
Definition run_job (j : job) (dump : string) (dump_ok : bool) (s : Snapshots.store)
  : Snapshots.store * Z :=
  (Snapshots.mk_store
     (Snapshots.write_file (BACKUP_FILE j) dump (Snapshots.backups_files s))
     (Snapshots.snapshots_dir s),
   if dump_ok then 0 else 1).

End ManualSnapshot.

(** ** The upload dialog: the snapshot name taken from the file name

    [handleFileChange], [isValidName] and the Upload button of
    [upload-snapshot-dialog.tsx].  Strings are byte strings; each byte that
    is not a letter, digit, underscore or dash becomes a dash. *)

Module UploadDialog.






(** [/^[a-zA-Z0-9_-]+$/.test(name)] *)
Definition isValidName (name : string) : bool :=
  Shell.nonempty name && string_all Snapshots.is_label_char name.

(** The dialog's state: the selected file (by its name) and the name
    field. *)
Record state : Type := mk_state {
  file : option string;
  name : string
}.


(** The Upload button: [disabled] unless a file and a valid name are there
    and no upload is running; a click on it runs [handleUpload], which
    uploads the file under the name. *)
Definition upload_disabled (pending : bool) (st : state) : bool :=
  match file st with
  | Some _ => negb (Shell.nonempty (name st)) || negb (isValidName (name st)) || pending
  | None => true
  end.

Definition click_upload (pending : bool) (st : state) : option (string * string) :=
  if upload_disabled pending st then None
  else
    match file st with
    | Some f => if Shell.nonempty (name st) then Some (f, name st) else None
    | None => None
    end.

End UploadDialog.

(** ** [web-ui-next/lib/api.ts]: [createSnapshotFromDeployment] *)

Module ApiClient.

Record CreateNamedSnapshotRequest : Type := mk_create_named {
  name : string;
  source : string
}.

(** [iso] is [new Date().toISOString()]. *)
Definition createSnapshotFromDeployment (iso : string) (namespace : string)
           (name : option string) : CreateNamedSnapshotRequest :=
  let given := match name with Some n => n | None => EmptyString end in
  mk_create_named
    (if Shell.nonempty given then given
     else PyText.slice 0 10 iso ++ "-from-" ++ namespace)
    namespace.

End ApiClient.

(** ** The custom values form: rows of environment variables

    [addEnvVar], [removeEnvVar], [updateResources] and [updateRawYaml] of
    [custom-values-form.tsx] (custom values plan, Task 4), as functions from
    the value of the form to the value given to [onChange]. *)

Module CustomValuesForm.
Import HelmValues.

(** [value.envVars || []] *)
Definition rows (value : CustomValues) : list EnvVar :=
  match envVars value with
  | Some evs => evs
  | None => []
  end.

Definition addEnvVar (value : CustomValues) : CustomValues :=
  mk_custom (Some (rows value ++ [HelmValues.mk_env "" ""])%list)
            (resources value) (workerReplicas value) (rawYaml value).

(** [envVars.filter((_, i) => i !== index)] *)
Fixpoint without (index : nat) (evs : list EnvVar) : list EnvVar :=
  match evs with
  | [] => []
  | ev :: rest =>
      match index with
      | O => rest
      | S i => ev :: without i rest
      end
  end.

Definition removeEnvVar (index : nat) (value : CustomValues) : CustomValues :=
  mk_custom (Some (without index (rows value)))
            (resources value) (workerReplicas value) (rawYaml value).

(** [newValue || undefined] *)
Definition or_undefined (s : string) : option string :=
  if Shell.nonempty s then Some s else None.

Inductive field : Type := Cpu | Memory.

(** [{...value.resources, [field]: newValue || undefined}] *)
Definition updateResources (f : field) (newValue : string) (value : CustomValues)
  : CustomValues :=
  let old := match resources value with
             | Some r => r
             | None => mk_resources None None
             end in
  mk_custom (envVars value)
            (Some match f with
                  | Cpu => mk_resources (or_undefined newValue) (memory old)
                  | Memory => mk_resources (cpu old) (or_undefined newValue)
                  end)
            (workerReplicas value) (rawYaml value).

(** What the input of a resource field shows:
    [value.resources?.cpu || ''] and [value.resources?.memory || '']. *)
Definition shown (f : field) (value : CustomValues) : string :=
  match resources value with
  | Some r =>
      match (match f with Cpu => cpu r | Memory => memory r end) with
      | Some s => s
      | None => EmptyString
      end
  | None => EmptyString
  end.

Definition updateRawYaml (newValue : string) (value : CustomValues) : CustomValues :=
  mk_custom (envVars value) (resources value) (workerReplicas value)
            (or_undefined newValue).

End CustomValuesForm.

(** ** [web-ui/api/infrastructure.py]: [get_infrastructure_status] *)

Module Infrastructure.



(** [kubectl get pods -n n8n-system -l <label> -o jsonpath=...] *)
Definition pods_call (label : string) : proc_call :=
  mk_call ["kubectl"; "get"; "pods"; "-n"; "n8n-system"; "-l"; label; "-o";
           "jsonpath={.items[0].status.phase}"]
          None None.

(** One [try: ... except: pass] block: the flag stays [False] when
    [subprocess.run] raises. *)
Definition check (run : runner) (label : string) : traced bool :=
  then_ (subprocess_run run (pods_call label))
        (fun r =>
           pure match r with
                | Returns result =>
                    (returncode result =? 0)
                    && String.eqb (strip (stdout result)) "Running"
                | Raises _ => false
                end).



End Infrastructure.

(* ================================================================== *)
(** * Part II: properties                                              *)
(* ================================================================== *)

(** ** Decimal strings *)

Section DecimalStrings.

Lemma uint_string_digits (d : Decimal.uint) :
  string_all is_digit (NilEmpty.string_of_uint d) = true.
Proof. induction d; simpl; auto. Qed.

Lemma N_to_uint_nonnil (n : N) : N.to_uint n <> Decimal.Nil.
Proof.
  destruct n as [|p]; simpl; [discriminate|].
  apply Unsigned.to_uint_nonnil.
Qed.

Lemma str_of_N_digits (n : N) : string_all is_digit (str_of_N n) = true.
Proof. apply uint_string_digits. Qed.

Lemma digit_not (c x : ascii) :
  is_digit x = false -> is_digit c = true -> Ascii.eqb c x = false.
Proof.
  intros Hx Hc. destruct (Ascii.eqb_spec c x) as [->|]; [congruence|reflexivity].
Qed.

Lemma digit_not_space (c : ascii) : is_digit c = true -> is_space c = false.
Proof.
  unfold is_digit, is_space. intros H.
  apply andb_true_iff in H as [H1 H2].
  apply N.leb_le in H1. apply N.leb_le in H2.
  apply orb_false_iff; split; apply andb_false_iff.
  - right. apply N.leb_gt. lia.
  - right. apply N.leb_gt. lia.
Qed.

Lemma int_body_digit (c : ascii) (r : string) (acc : N) (seen : bool) :
  is_digit c = true ->
  int_body (String c r) acc seen = int_body r (10 * acc + digit_value c)%N true.
Proof. intros H. simpl. rewrite H. reflexivity. Qed.

Lemma pos_digit_step (p k : positive) :
  (10 * N.pos p + N.pos k)%N = N.pos (k + 10 * p).
Proof. lia. Qed.

(** The accumulator of [int()] against the library's reading of a decimal
    number. *)
Lemma int_body_uint (d : Decimal.uint) :
  forall acc,
    int_body (NilEmpty.string_of_uint d) acc true
    = Some match acc with
           | N0 => N.of_uint d
           | Npos p => Npos (Pos.of_uint_acc d p)
           end.
Proof.
  induction d; intros acc;
    [ destruct acc; reflexivity
    | cbn [NilEmpty.string_of_uint];
      rewrite int_body_digit by reflexivity; rewrite IHd; f_equal;
      destruct acc as [|p]; [reflexivity|];
      match goal with
      | |- context [digit_value ?c] =>
          let k := eval vm_compute in (digit_value c) in
          change (digit_value c) with k
      end;
      first [ rewrite N.add_0_r; reflexivity
            | rewrite pos_digit_step; reflexivity ] .. ].
Qed.

Lemma int_body_uint_start (d : Decimal.uint) :
  d <> Decimal.Nil ->
  int_body (NilEmpty.string_of_uint d) 0%N false = Some (N.of_uint d).
Proof.
  destruct d; intros Hd; try congruence; simpl; rewrite int_body_uint; reflexivity.
Qed.

Lemma lstrip_digits (s : string) :
  string_all is_digit s = true -> lstrip s = s.
Proof.
  destruct s as [|c r]; simpl; auto.
  intros H. apply andb_true_iff in H as [Hc _].
  rewrite (digit_not_space _ Hc). reflexivity.
Qed.

Lemma rstrip_digits (s : string) :
  string_all is_digit s = true -> rstrip s = s.
Proof.
  induction s as [|c r IH]; simpl; auto.
  intros H. apply andb_true_iff in H as [Hc Hr].
  rewrite (IH Hr). destruct r; [|reflexivity].
  rewrite (digit_not_space _ Hc). reflexivity.
Qed.

Lemma strip_digits (s : string) :
  string_all is_digit s = true -> strip s = s.
Proof.
  intros H. unfold strip. rewrite (lstrip_digits _ H). apply rstrip_digits, H.
Qed.

(** [int(str(n)) == n] for every natural number. *)
Lemma py_int_str_of_N (n : N) : py_int (str_of_N n) = Returns (Z.of_N n).
Proof.
  unfold py_int. rewrite (strip_digits _ (str_of_N_digits n)).
  unfold str_of_N.
  pose proof (N_to_uint_nonnil n) as Hn.
  pose proof (int_body_uint_start _ Hn) as Hb.
  rewrite DecimalN.Unsigned.of_to in Hb.
  destruct (N.to_uint n); try congruence;
    cbn [NilEmpty.string_of_uint] in *; rewrite Hb; f_equal; lia.
Qed.

(** *** [replace] and [split] on fields without the separator *)

Lemma str_replace_app (a b : ascii) (s t : string) :
  str_replace a b (s ++ t) = str_replace a b s ++ str_replace a b t.
Proof. induction s as [|c r IH]; simpl; [reflexivity|]. rewrite IH. reflexivity. Qed.

Lemma str_replace_digits (a b : ascii) (s : string) :
  is_digit a = false -> string_all is_digit s = true -> str_replace a b s = s.
Proof.
  intros Ha. induction s as [|c r IH]; simpl; auto.
  intros H. apply andb_true_iff in H as [Hc Hr].
  rewrite (digit_not _ _ Ha Hc), (IH Hr). reflexivity.
Qed.

Lemma str_split_digits (sep : ascii) (s : string) :
  is_digit sep = false -> string_all is_digit s = true -> str_split sep s = [s].
Proof.
  intros Hsep. induction s as [|c r IH]; simpl; auto.
  intros H. apply andb_true_iff in H as [Hc Hr].
  rewrite (digit_not _ _ Hsep Hc), (IH Hr). reflexivity.
Qed.

Lemma str_split_field (sep : ascii) (s t : string) :
  is_digit sep = false -> string_all is_digit s = true ->
  str_split sep (s ++ String sep t) = s :: str_split sep t.
Proof.
  intros Hsep. induction s as [|c r IH]; simpl.
  - intros _. rewrite Ascii.eqb_refl. reflexivity.
  - intros H. apply andb_true_iff in H as [Hc Hr].
    rewrite (digit_not _ _ Hsep Hc), (IH Hr). reflexivity.
Qed.

End DecimalStrings.

(** ** Identity of a deployment without a custom name *)

Section AutoIdentity.
Import Versions.

Variables major minor patch : N.

Lemma namespace_of_triple :
  namespace_of (version_string major minor patch)
  = "n8n-v" ++ version_slug major minor patch.
Proof.
  unfold namespace_of, version_string, version_slug.
  f_equal.
  rewrite !str_replace_app. simpl.
  rewrite !str_replace_digits by (reflexivity || apply str_of_N_digits).
  reflexivity.
Qed.

Lemma port_of_triple :
  port_of (version_string major minor patch)
  = Returns (30000 + Z.of_N major * 100 + Z.of_N minor).
Proof.
  unfold port_of, version_string.
  change (str_of_N major ++ "." ++ str_of_N minor ++ "." ++ str_of_N patch)
    with (str_of_N major ++ String "." (str_of_N minor ++ String "." (str_of_N patch))).
  rewrite !str_split_field by (reflexivity || apply str_of_N_digits).
  rewrite str_split_digits by (reflexivity || apply str_of_N_digits).
  simpl. rewrite !py_int_str_of_N. reflexivity.
Qed.

Lemma wrap64_small (z : Z) : - 2 ^ 63 <= z < 2 ^ 63 -> Shell.wrap64 z = z.
Proof.
  intros H. unfold Shell.wrap64.
  rewrite Z.mod_small by lia. lia.
Qed.

End AutoIdentity.

(** C1.  A deployment of version major.minor.patch without a custom name
    gets the namespace (and release name) "n8n-v{major}-{minor}-{patch}" and
    the port 30000 + major*100 + minor:
    - the backend, from the version string alone ([namespace_of],
      [port_of]) and in the answer of [deploy_version] once the deploy
      script has succeeded;
    - the deploy script, from [VERSION_SLUG], [MAJOR] and [MINOR] when no
      [--name] was given, as long as the sum fits the shell's 64-bit
      arithmetic. *)
Theorem auto_identity_of_version_triple (major minor patch : N) :
  let namespace := "n8n-v" ++ Versions.version_slug major minor patch in
  let port := 30000 + Z.of_N major * 100 + Z.of_N minor in
  Versions.namespace_of (Versions.version_string major minor patch) = namespace
  /\ Versions.port_of (Versions.version_string major minor patch) = Returns port
  /\ (forall (run : runner) (request : Versions.DeployRequest) (result : completed),
         Versions.version request = Versions.version_string major minor patch ->
         run (mk_call (Versions.deploy_cmd request) (Some "/workspace") None)
           = Returns result ->
         returncode result = 0 ->
         Versions.deploy_version run request
         = Returns (Versions.DeployInitiated namespace (Versions.url_of port)
                                             (stdout result)))
  /\ (forall v : DeployScript.vars,
         DeployScript.CUSTOM_NAME v = EmptyString ->
         DeployScript.VERSION_SLUG v = Versions.version_slug major minor patch ->
         DeployScript.MAJOR v = Z.of_N major ->
         DeployScript.MINOR v = Z.of_N minor ->
         port < 2 ^ 63 ->
         DeployScript.derive v = DeployScript.mk_identity namespace namespace port).
Proof.
  intros namespace port.
  split; [apply namespace_of_triple|].
  split; [apply port_of_triple|].
  split.
  - intros run request result Hv Hrun Hrc.
    unfold Versions.deploy_version. rewrite Hrun. simpl.
    rewrite Hrc. simpl.
    rewrite Hv, port_of_triple, namespace_of_triple. reflexivity.
  - intros v Hname Hslug Hmajor Hminor Hfit.
    unfold DeployScript.derive. rewrite Hname, Hslug, Hmajor, Hminor. simpl.
    unfold Shell.sh_add, Shell.sh_mul. subst port.
    rewrite (wrap64_small (Z.of_N major * 100)) by lia.
    rewrite (wrap64_small (30000 + _)) by lia.
    rewrite wrap64_small by lia.
    reflexivity.
Qed.

(** Version 1.85.0: namespace n8n-v1-85-0, port 30185. *)
Lemma auto_identity_1_85_0 :
  Versions.deploy_version
    (fun _ => Returns (mk_completed 0 "deployed" ""))
    (Versions.mk_deploy_request "1.85.0" "regular" false)
  = Returns (Versions.DeployInitiated "n8n-v1-85-0" "http://localhost:30185" "deployed")
  /\ DeployScript.derive (DeployScript.mk_vars "" "1-85-0" 1 85)
     = DeployScript.mk_identity "n8n-v1-85-0" "n8n-v1-85-0" 30185.
Proof.
  destruct (auto_identity_of_version_triple 1 85 0) as (_ & _ & Hpy & Hsh).
  split.
  - exact (Hpy (fun _ => Returns (mk_completed 0 "deployed" ""))
               (Versions.mk_deploy_request "1.85.0" "regular" false)
               (mk_completed 0 "deployed" "")
               eq_refl eq_refl eq_refl).
  - apply (Hsh (DeployScript.mk_vars "" "1-85-0" 1 85)); reflexivity.
Defined.

(** ** The hashed port of a custom name *)

Section HashedPort.
Import Shell DeployScript.

(** The sums the [cksum] program prints for three inputs. *)
Lemma cksum_examples :
  cksum "" = 4294967295
  /\ cksum "a" = 1220704766
  /\ cksum "test-acme" = 1022460983.
Proof. repeat split; vm_compute; reflexivity. Qed.

(** More rounds than the length has bytes change nothing. *)
Lemma crc_length_enough (fuel : nat) :
  forall (crc n : Z) (more : nat),
    0 <= n < 2 ^ (8 * Z.of_nat fuel) ->
    crc_length (fuel + more) crc n = crc_length fuel crc n.
Proof.
  induction fuel as [|fuel IH]; intros crc n more Hn.
  - change (2 ^ (8 * Z.of_nat 0)) with 1 in Hn.
    assert (n = 0) as -> by lia.
    destruct more; reflexivity.
  - cbn [Nat.add crc_length].
    destruct (n =? 0); [reflexivity|].
    apply IH. rewrite Z.shiftr_div_pow2 by lia.
    replace (8 * Z.of_nat (S fuel)) with (8 + 8 * Z.of_nat fuel) in Hn by lia.
    rewrite Z.pow_add_r in Hn by lia.
    change (2 ^ 8) with 256 in *.
    split; [apply Z.div_pos; lia|].
    apply Z.div_lt_upper_bound; lia.
Qed.

(** The rounds [cksum] allows are enough for the length of its input. *)
Lemma cksum_length_rounds (s : string) (more : nat) :
  let n := Z.of_nat (String.length s) in
  crc_length (S (Z.to_nat (Z.log2 n)) + more) (crc_bytes 0 s) n
  = crc_length (S (Z.to_nat (Z.log2 n))) (crc_bytes 0 s) n.
Proof.
  intros n. apply crc_length_enough.
  assert (0 <= n) by (subst n; lia).
  split; [assumption|].
  pose proof (Z.log2_nonneg n) as Hl.
  destruct (Z.eq_dec n 0) as [->|Hn0].
  - apply Z.pow_pos_nonneg; lia.
  - destruct (Z.log2_spec n) as [_ Hup]; [lia|].
    eapply Z.lt_le_trans; [exact Hup|].
    apply Z.pow_le_mono_r; lia.
Qed.

Lemma cksum_range (s : string) : 0 <= cksum s <= 4294967295.
Proof.
  unfold cksum.
  set (crc := Z.lnot _).
  split.
  - apply Z.land_nonneg. right. unfold mask32. lia.
  - change mask32 with (Z.ones 32). rewrite Z.land_ones by lia.
    pose proof (Z.mod_pos_bound crc (2 ^ 32)). lia.
Qed.

Lemma hashed_port_mod (name : string) :
  hashed_port name = 30000 + cksum (echo_n name) mod 1000.
Proof.
  unfold hashed_port. rewrite Z.rem_mod_nonneg; [reflexivity| |lia].
  apply cksum_range.
Qed.

Lemma hashed_port_range (name : string) : 30000 <= hashed_port name <= 30999.
Proof.
  rewrite hashed_port_mod.
  pose proof (Z.mod_pos_bound (cksum (echo_n name)) 1000). lia.
Qed.

Lemma pattern_not_echo_option (name : string) :
  NameRule.object_name_pattern name = true -> echo_n name = name.
Proof.
  unfold echo_n. destruct name as [|c r]; [discriminate|].
  simpl. intros H. apply andb_true_iff in H as [Hc _].
  destruct (Ascii.eqb_spec c "-") as [->|Hne]; [discriminate|].
  destruct c as [[] [] [] [] [] [] [] []]; try reflexivity; congruence.
Qed.

End HashedPort.

(** C2.  With a custom name the script uses the name as namespace and
    release name, and the port is 30000 plus the [cksum] of what
    [echo -n] prints for the name, modulo 1000.  The port lies between
    30000 and 30999, it is the [cksum] of the name itself for every name
    allowed by the object-name rule, and it depends on nothing but the
    name: any two runs with the same name, whatever the version, get the
    same port. *)
Theorem hashed_port_of_custom_name (name : string) (v : DeployScript.vars) :
  Shell.nonempty name = true ->
  DeployScript.CUSTOM_NAME v = name ->
  DeployScript.NAMESPACE (DeployScript.derive v) = name
  /\ DeployScript.RELEASE_NAME (DeployScript.derive v) = name
  /\ DeployScript.PORT (DeployScript.derive v)
     = 30000 + Shell.cksum (Shell.echo_n name) mod 1000
  /\ 30000 <= DeployScript.PORT (DeployScript.derive v) <= 30999
  /\ (NameRule.object_name_pattern name = true ->
      DeployScript.PORT (DeployScript.derive v) = 30000 + Shell.cksum name mod 1000)
  /\ (forall v' : DeployScript.vars,
         DeployScript.CUSTOM_NAME v' = name ->
         DeployScript.PORT (DeployScript.derive v')
         = DeployScript.PORT (DeployScript.derive v)).
Proof.
  intros Hne Hv.
  assert (Hd : forall w, DeployScript.CUSTOM_NAME w = name ->
                         DeployScript.derive w
                         = DeployScript.mk_identity name name (DeployScript.hashed_port name)).
  { intros w Hw. unfold DeployScript.derive. rewrite Hw, Hne. reflexivity. }
  rewrite (Hd v Hv). simpl.
  repeat split; try reflexivity.
  - apply hashed_port_mod.
  - apply hashed_port_range.
  - apply hashed_port_range.
  - intros Hp. rewrite hashed_port_mod, (pattern_not_echo_option _ Hp). reflexivity.
  - intros v' Hv'. rewrite (Hd v' Hv'). reflexivity.
Qed.

(** The name test-acme: [cksum] 1022460983, port 30983. *)
Lemma hashed_port_test_acme :
  DeployScript.PORT (DeployScript.derive (DeployScript.mk_vars "test-acme" "1-85-0" 1 85))
  = 30983
  /\ DeployScript.PORT (DeployScript.derive (DeployScript.mk_vars "test-acme" "2-1-0" 2 1))
     = 30983.
Proof.
  pose (v := DeployScript.mk_vars "test-acme" "1-85-0" 1 85).
  destruct (hashed_port_of_custom_name "test-acme" v eq_refl eq_refl)
    as (_ & _ & Hport & _ & _ & Hsame).
  split.
  - exact Hport.
  - rewrite (Hsame (DeployScript.mk_vars "test-acme" "2-1-0" 2 1) eq_refl).
    exact Hport.
Defined.

(** ** Composition of the Helm values *)

Section DeepMerge.
Import HelmValues.

Lemma dict_get_set_same (k : string) (v : value) (d : dict) :
  dict_get k (dict_set k v d) = Some v.
Proof.
  induction d as [|[k' v'] rest IH]; simpl.
  - rewrite String.eqb_refl. reflexivity.
  - destruct (String.eqb k k') eqn:E; simpl.
    + rewrite String.eqb_refl. reflexivity.
    + rewrite E. exact IH.
Qed.

Lemma dict_get_set_other (k k' : string) (v : value) (d : dict) :
  String.eqb k k' = false ->
  dict_get k (dict_set k' v d) = dict_get k d.
Proof.
  intros Hne. induction d as [|[k0 v0] rest IH]; simpl.
  - rewrite Hne. reflexivity.
  - destruct (String.eqb k' k0) eqn:E; simpl.
    + apply String.eqb_eq in E. subst k0. rewrite Hne. reflexivity.
    + rewrite IH. reflexivity.
Qed.

Lemma merge_into_dict (result : dict) (items : dict) :
  merge_into result (VDict items) = fold_left merge_item items result.
Proof. reflexivity. Qed.

Lemma merge_item_get_same (k : string) (v : value) (result : dict) :
  dict_get k (merge_item result (k, v)) = Some (merged_value (dict_get k result) v).
Proof.
  unfold merge_item, merged_value.
  destruct (dict_get k result) as [[| | | | | |r]|]; try apply dict_get_set_same.
  destruct v; apply dict_get_set_same.
Qed.

Lemma merge_item_get_other (k k' : string) (v : value) (result : dict) :
  String.eqb k k' = false ->
  dict_get k (merge_item result (k', v)) = dict_get k result.
Proof.
  intros Hne. unfold merge_item.
  destruct (dict_get k' result) as [[| | | | | |r]|];
    try (apply dict_get_set_other; exact Hne).
  destruct v; apply dict_get_set_other; exact Hne.
Qed.

(** A key the override does not mention keeps the value it had. *)
Lemma fold_merge_get_absent (k : string) (items : dict) :
  forall result,
    existsb (String.eqb k) (map fst items) = false ->
    dict_get k (fold_left merge_item items result) = dict_get k result.
Proof.
  induction items as [|[k' v'] rest IH]; intros result H;
    cbn [fold_left map fst existsb] in *.
  - reflexivity.
  - apply orb_false_iff in H as [Hk Hrest].
    rewrite (IH _ Hrest). apply merge_item_get_other, Hk.
Qed.

Lemma dict_get_absent (k : string) (items : dict) :
  existsb (String.eqb k) (map fst items) = false <-> dict_get k items = None.
Proof.
  induction items as [|[k' v'] rest IH]; simpl.
  - tauto.
  - destruct (String.eqb k k'); simpl; [split; discriminate|exact IH].
Qed.

(** A key of the override ends with the merge of its two values. *)
Lemma fold_merge_get (k : string) (v : value) (items : dict) :
  forall result,
    unique_keys (map fst items) = true ->
    dict_get k items = Some v ->
    dict_get k (fold_left merge_item items result)
    = Some (merged_value (dict_get k result) v).
Proof.
  induction items as [|[k' v'] rest IH]; intros result Hu Hg;
    cbn [fold_left map fst unique_keys dict_get] in *.
  - discriminate.
  - apply andb_true_iff in Hu as [Hfresh Hu].
    destruct (String.eqb k k') eqn:E.
    + apply String.eqb_eq in E. subst k'. injection Hg as <-.
      apply negb_true_iff in Hfresh.
      rewrite (fold_merge_get_absent _ _ _ Hfresh).
      apply merge_item_get_same.
    + rewrite (IH _ Hu Hg). rewrite (merge_item_get_other _ _ _ _ E). reflexivity.
Qed.

Lemma deep_merge_get (k : string) (v : value) (base raw : dict) :
  unique_keys (map fst raw) = true ->
  dict_get k raw = Some v ->
  dict_get k (deep_merge base raw) = Some (merged_value (dict_get k base) v).
Proof. intros. unfold deep_merge. rewrite merge_into_dict. apply fold_merge_get; assumption. Qed.

Lemma deep_merge_get_absent (k : string) (base raw : dict) :
  dict_get k raw = None ->
  dict_get k (deep_merge base raw) = dict_get k base.
Proof.
  intros H. unfold deep_merge. rewrite merge_into_dict.
  apply fold_merge_get_absent, dict_get_absent, H.
Qed.

Lemma wf_dict_get (k : string) (v : value) (items : dict) :
  wf_value (VDict items) = true -> dict_get k items = Some v -> wf_value v = true.
Proof.
  simpl. intros H. apply andb_true_iff in H as [_ H]. revert H.
  induction items as [|[k' v'] rest IH]; simpl; [discriminate|].
  intros H Hg. apply andb_true_iff in H as [Hv Hrest].
  destruct (String.eqb k k'); [injection Hg as <-; exact Hv|auto].
Qed.

Lemma wf_dict_unique (items : dict) :
  wf_value (VDict items) = true -> unique_keys (map fst items) = true.
Proof. simpl. intros H. apply andb_true_iff in H as [H _]. exact H. Qed.

(** Last writer wins at every leaf of the override. *)
Lemma deep_merge_leaf (path : list string) :
  forall (base raw : dict) (leaf : value),
    wf_value (VDict raw) = true ->
    lookup_path path (VDict raw) = Some leaf ->
    is_dict leaf = false ->
    lookup_path path (VDict (deep_merge base raw)) = Some leaf.
Proof.
  induction path as [|k rest IH]; intros base raw leaf Hwf Hl Hleaf.
  - simpl in Hl. injection Hl as <-. discriminate.
  - simpl in Hl |- *.
    destruct (dict_get k raw) as [v|] eqn:Hk; [|discriminate].
    rewrite (deep_merge_get _ _ _ _ (wf_dict_unique _ Hwf) Hk).
    pose proof (wf_dict_get _ _ _ Hwf Hk) as Hwfv.
    unfold merged_value.
    destruct (dict_get k base) as [[| | | | | |r]|]; try exact Hl.
    destruct v as [| | | | | |o]; try exact Hl.
    apply IH; assumption.
Qed.

End DeepMerge.

(** C3.  When the raw override text parses to a mapping, the values are
    the deep merge of that mapping over the values of the structured
    fields.  Every leaf of the raw mapping (a value that is not itself a
    mapping, found by a path of keys) is found under the same path in the
    result, whatever the structured fields put there; a top-level key the
    raw mapping does not have keeps its structured value. *)
Theorem raw_override_wins_per_leaf
        (safe_load : string -> outcome HelmValues.value)
        (custom : HelmValues.CustomValues) (text : string)
        (raw : HelmValues.dict) :
  HelmValues.rawYaml custom = Some text ->
  Shell.nonempty text = true ->
  safe_load text = Returns (HelmValues.VDict raw) ->
  HelmValues.wf_value (HelmValues.VDict raw) = true ->
  let effective :=
    HelmValues.deep_merge (HelmValues.structured_values custom) raw in
  HelmValues.build_helm_values safe_load custom = Returns effective
  /\ (forall (path : list string) (leaf : HelmValues.value),
         HelmValues.lookup_path path (HelmValues.VDict raw) = Some leaf ->
         HelmValues.is_dict leaf = false ->
         HelmValues.lookup_path path (HelmValues.VDict effective) = Some leaf)
  /\ (forall k : string,
         HelmValues.dict_get k raw = None ->
         HelmValues.dict_get k effective
         = HelmValues.dict_get k (HelmValues.structured_values custom)).
Proof.
  intros Hraw Hne Hload Hwf effective.
  split; [|split].
  - unfold HelmValues.build_helm_values. rewrite Hraw, Hne, Hload. reflexivity.
  - intros path leaf Hl Hleaf. apply deep_merge_leaf; assumption.
  - intros k Hk. apply deep_merge_get_absent, Hk.
Qed.

(** Structured [resources.cpu = "500m"], raw override
    [{resources: {cpu: "250m"}}]: [resources.cpu] of the result is "250m";
    the structured limit stays where the form puts it, under
    [resources.main.limits]. *)
Lemma raw_override_cpu_250m :
  let custom :=
    HelmValues.mk_custom None (Some (HelmValues.mk_resources (Some "500m") None))
                         None (Some "resources: {cpu: 250m}") in
  let raw := [("resources", HelmValues.VDict [("cpu", HelmValues.VStr "250m")])] in
  let safe_load := fun _ : string => Returns (HelmValues.VDict raw) in
  HelmValues.build_helm_values safe_load custom
  = Returns
      [("resources",
        HelmValues.VDict
          [("main", HelmValues.VDict
                      [("limits", HelmValues.VDict [("cpu", HelmValues.VStr "500m")])]);
           ("cpu", HelmValues.VStr "250m")])]
  /\ HelmValues.lookup_path ["resources"; "cpu"]
       (HelmValues.VDict
          (HelmValues.deep_merge (HelmValues.structured_values custom) raw))
     = Some (HelmValues.VStr "250m").
Proof.
  intros custom raw safe_load.
  destruct (raw_override_wins_per_leaf safe_load custom "resources: {cpu: 250m}" raw
              eq_refl eq_refl eq_refl eq_refl) as (Hbuild & Hleaf & _).
  split.
  - exact Hbuild.
  - apply (Hleaf ["resources"; "cpu"] (HelmValues.VStr "250m")); reflexivity.
Defined.



(** ** Custom names: the form's validation and the object-name rule *)

Section NameValidation.
Import DeployForm NameRule.






End NameValidation.




(** ** Named snapshots *)

Section NamedSnapshots.
Import Snapshots.



Lemma length_app (s t : string) :
  String.length (s ++ t) = (String.length s + String.length t)%nat.
Proof. induction s as [|c r IH]; simpl; [reflexivity|]. rewrite IH. reflexivity. Qed.



End NamedSnapshots.




(** ** The version of a namespace *)

Section VersionOfNamespace.
Import NamespaceInfo.

Lemma version_match_here (s : string) (g : string * string * string) :
  match_here s = Some g -> version_match s = Some g.
Proof.
  intros H. destruct s as [|c r]; [discriminate|].
  cbn [version_match]. rewrite H. reflexivity.
Qed.

Lemma take_digits_all (ds : string) :
  string_all is_digit ds = true -> take_digits ds = (ds, EmptyString).
Proof.
  induction ds as [|c r IH]; simpl; [reflexivity|].
  intros H. apply andb_true_iff in H as [Hc Hr].
  rewrite Hc, (IH Hr). reflexivity.
Qed.

Lemma take_digits_until (ds : string) (c : ascii) (rest : string) :
  string_all is_digit ds = true -> is_digit c = false ->
  take_digits (ds ++ String c rest) = (ds, String c rest).
Proof.
  intros Hds Hc. induction ds as [|d r IH]; simpl.
  - rewrite Hc. reflexivity.
  - simpl in Hds. apply andb_true_iff in Hds as [Hd Hr].
    rewrite Hd, (IH Hr). reflexivity.
Qed.

Lemma str_of_N_nonempty (n : N) : exists c r, str_of_N n = String c r.
Proof.
  unfold str_of_N. pose proof (N_to_uint_nonnil n) as H.
  destruct (N.to_uint n); try congruence; simpl; eauto.
Qed.

Lemma digits1_until (n : N) (c : ascii) (rest : string) :
  is_digit c = false ->
  digits1 (str_of_N n ++ String c rest) = Some (str_of_N n, String c rest).
Proof.
  intros Hc. unfold digits1.
  rewrite (take_digits_until _ _ _ (str_of_N_digits n) Hc).
  destruct (str_of_N_nonempty n) as (d & r & ->). reflexivity.
Qed.

Lemma digits1_all (n : N) : digits1 (str_of_N n) = Some (str_of_N n, EmptyString).
Proof.
  unfold digits1. rewrite (take_digits_all _ (str_of_N_digits n)).
  destruct (str_of_N_nonempty n) as (d & r & ->). reflexivity.
Qed.

(** The pattern reads back the three numbers of a generated namespace. *)
Lemma version_match_generated (major minor patch : N) :
  version_match (Versions.namespace_of (Versions.version_string major minor patch))
  = Some (str_of_N major, str_of_N minor, str_of_N patch).
Proof.
  apply version_match_here.
  rewrite namespace_of_triple. unfold Versions.version_slug, match_here.
  cbn [append strip_prefix Ascii.eqb Bool.eqb].
  rewrite digits1_until by reflexivity. cbn [expect Ascii.eqb Bool.eqb].
  rewrite digits1_until by reflexivity. cbn [expect Ascii.eqb Bool.eqb].
  rewrite digits1_all. reflexivity.
Qed.

End VersionOfNamespace.



(** ** Listing the snapshots *)

Section Listing.
Import Snapshots.

Lemma grep_v_meta_spec (lines : list string) (n : string) :
  In n (grep_v_meta lines) <-> In n lines /\ ends_with ".meta" n = false.
Proof.
  unfold grep_v_meta. rewrite filter_In.
  split; intros [H1 H2]; split; auto.
  - apply negb_true_iff, H2.
  - apply negb_true_iff, H2.
Qed.

(** A name ending in [.sql] does not end in [.meta]. *)
Lemma sql_is_not_meta (n : string) :
  ends_with ".sql" n = true -> ends_with ".meta" n = false.
Proof.
  induction n as [|c r IH]; [discriminate|].
  cbn [ends_with]. intros H.
  apply orb_true_iff in H as [H|H].
  - apply String.eqb_eq in H. injection H as -> ->. reflexivity.
  - rewrite (IH H), orb_false_r.
    apply String.eqb_neq. intros E. injection E as _ ->. discriminate.
Qed.

Lemma ends_with_strip (p suffix : string) :
  forall n rest,
    NamespaceInfo.strip_prefix p n = Some rest ->
    ends_with suffix rest = true -> ends_with suffix n = true.
Proof.
  induction p as [|a p IH]; intros n rest H Hs; simpl in H.
  - injection H as <-. exact Hs.
  - destruct n as [|b n]; [discriminate|].
    destruct (Ascii.eqb a b); [|discriminate].
    cbn [ends_with]. rewrite (IH _ _ H Hs). apply orb_true_r.
Qed.

Lemma n8n_sql_ends_sql (n : string) : n8n_sql n = true -> ends_with ".sql" n = true.
Proof.
  unfold n8n_sql. destruct (NamespaceInfo.strip_prefix "n8n-" n) as [rest|] eqn:E;
    [|discriminate].
  apply ends_with_strip with (p := "n8n-"). exact E.
Qed.

(** The named section is the [.sql] names of [/backups/snapshots/]. *)
Lemma list_named_spec (s : store) (n : string) :
  In n (list_named true s)
  <-> In n (list_files true s NamedDir) /\ ends_with ".sql" n = true.
Proof.
  unfold list_named, grep_sql. rewrite grep_v_meta_spec, filter_In.
  split.
  - intros [H _]. exact H.
  - intros [H1 H2]. repeat split; auto. apply sql_is_not_meta, H2.
Qed.

(** The timestamped section is the [n8n-*.sql] names of [/backups/]. *)
Lemma list_auto_spec (s : store) (n : string) :
  In n (list_auto true s)
  <-> In n (list_files true s Backups) /\ n8n_sql n = true.
Proof.
  unfold list_auto, grep_n8n_sql. rewrite grep_v_meta_spec, filter_In.
  split.
  - intros [H _]. exact H.
  - intros [H1 H2]. repeat split; auto. apply sql_is_not_meta, n8n_sql_ends_sql, H2.
Qed.

End Listing.

(** C8, as the code has it.  With acme.sql and acme.sql.meta under
    [/backups/snapshots/] and the two timestamped dumps under [/backups/],
    the listing shows one named snapshot, acme.sql, and the two timestamped
    ones.  On every store no listed name ends in [.meta], and what decides
    the section is the directory together with the name: the named section
    is every [.sql] name of [/backups/snapshots/], the timestamped section
    every [n8n-*.sql] name of [/backups/].  File contents, the [.meta]
    records included, play no part. *)
Theorem listing_is_by_directory_and_name :
  (let s := Snapshots.mk_store
              [("n8n-20260119-120000-manual.sql", "dump 1");
               ("n8n-20260119-130000-pre-v1.85.0.sql", "dump 2")]
              (Some [("acme.sql", "dump 3"); ("acme.sql.meta", "{}")]) in
   Snapshots.list_named true s = ["acme.sql"]
   /\ Snapshots.list_auto true s
      = ["n8n-20260119-120000-manual.sql"; "n8n-20260119-130000-pre-v1.85.0.sql"]
   /\ Snapshots.list_snapshots true s "all"
      = ["=== Named Snapshots ===";
         "  acme.sql";
         "";
         "=== Timestamped Snapshots ===";
         "  n8n-20260119-120000-manual.sql";
         "  n8n-20260119-130000-pre-v1.85.0.sql"])
  /\ (forall (exec_ok : bool) (s : Snapshots.store) (n : string),
         In n (Snapshots.list_named exec_ok s ++ Snapshots.list_auto exec_ok s) ->
         Snapshots.ends_with ".meta" n = false)
  /\ (forall (s : Snapshots.store) (n : string),
         (In n (Snapshots.list_named true s)
          <-> In n (Snapshots.list_files true s Snapshots.NamedDir)
              /\ Snapshots.ends_with ".sql" n = true)
         /\ (In n (Snapshots.list_auto true s)
             <-> In n (Snapshots.list_files true s Snapshots.Backups)
                 /\ Snapshots.n8n_sql n = true))
  /\ (forall s s' : Snapshots.store,
         Snapshots.list_files true s Snapshots.NamedDir
         = Snapshots.list_files true s' Snapshots.NamedDir ->
         Snapshots.list_files true s Snapshots.Backups
         = Snapshots.list_files true s' Snapshots.Backups ->
         forall MODE, Snapshots.list_snapshots true s MODE
                      = Snapshots.list_snapshots true s' MODE).
Proof.
  split; [repeat split|].
  split; [|split].
  - intros exec_ok s n H. apply in_app_or in H.
    destruct H as [H|H]; apply grep_v_meta_spec in H; apply H.
  - intros s n. split; [apply list_named_spec|apply list_auto_spec].
  - intros s s' Hn Hb MODE.
    unfold Snapshots.list_snapshots, Snapshots.list_named, Snapshots.list_auto.
    rewrite Hn, Hb. reflexivity.
Qed.

(** A store with a [.meta] file and a stray text file next to the dump;
    the same names with other contents list the same. *)
Lemma listing_named_directory :
  let s := Snapshots.mk_store [] (Some [("acme.sql", "dump"); ("acme.sql.meta", "{}");
                                        ("notes.txt", "text")]) in
  let s' := Snapshots.mk_store [] (Some [("acme.sql", ""); ("acme.sql.meta", "type: auto");
                                         ("notes.txt", "")]) in
  In "acme.sql" (Snapshots.list_named true s)
  /\ Snapshots.ends_with ".meta" "acme.sql" = false
  /\ Snapshots.list_snapshots true s "all" = Snapshots.list_snapshots true s' "all".
Proof.
  intros s s'.
  destruct listing_is_by_directory_and_name as (_ & Hmeta & Hdir & Hnames).
  assert (H : In "acme.sql" (Snapshots.list_named true s)).
  { apply (proj1 (Hdir s "acme.sql")). split; [left; reflexivity|reflexivity]. }
  split; [exact H|]. split.
  - apply (Hmeta true s "acme.sql"). apply in_or_app. left. exact H.
  - exact (Hnames s s' eq_refl eq_refl "all").
Defined.

(** C8, as stated, fails in its last part: the shape of a file name does
    not decide the section.  The label n8n-20260119-120000-manual is
    accepted for a named snapshot; its file has the timestamped shape and
    is listed as named, while the same name under [/backups/] is listed as
    timestamped. *)
Lemma same_name_in_both_sections :
  let f := "n8n-20260119-120000-manual.sql" in
  let e := Snapshots.mk_env (fun _ => true) "20260120-101500" true in
  let j := Snapshots.mk_job "snapshot-n8n-20260119-120000-manual-20260120-101500"
             "postgres.n8n-system.svc.cluster.local" "n8n" f
             "n8n-20260119-120000-manual" "shared" in
  let named := fst (Snapshots.run_job j "dump" true "now" (Snapshots.mk_store [] None)) in
  let auto := Snapshots.mk_store [(f, "dump")] None in
  Snapshots.applied_job
    (Snapshots.create_named_snapshot e "n8n-20260119-120000-manual" None) = Some j
  /\ Snapshots.list_named true named = [f]
  /\ Snapshots.list_auto true named = []
  /\ Snapshots.list_named true auto = []
  /\ Snapshots.list_auto true auto = [f].
Proof. repeat split. Qed.

(** ** Removal of a namespace *)

Section WaitForDeletion.
Import Removal.

(** The polling loop ends within the rounds [MAX_WAIT] allows. *)
Lemma poll_terminates (obs : cluster) (NAMESPACE : string) (fuel : nat) :
  forall (n : nat) (ELAPSED : Z),
    0 <= ELAPSED ->
    MAX_WAIT - ELAPSED <= 2 * Z.of_nat fuel ->
    exists t, poll fuel obs NAMESPACE n ELAPSED = Some t.
Proof.
  unfold MAX_WAIT.
  induction fuel as [|fuel IH]; intros n ELAPSED H0 Hfuel.
  - cbn [poll]. unfold MAX_WAIT. destruct (ELAPSED <? 120) eqn:E; [|eauto].
    apply Z.ltb_lt in E. exfalso. lia.
  - cbn [poll]. unfold MAX_WAIT.
    destruct (ELAPSED <? 120) eqn:E; [|eauto].
    apply Z.ltb_lt in E.
    destruct (negb (obs n)); [eauto|].
    unfold Shell.sh_add. rewrite wrap64_small by lia.
    destruct (IH (S n) (ELAPSED + 2)) as [t Ht]; [lia|lia|].
    rewrite Ht. eauto.
Qed.

Lemma wait_terminates (obs : cluster) (n0 : nat) (NAMESPACE : string) :
  exists t, wait_for_namespace_deletion obs n0 NAMESPACE = Some t.
Proof.
  unfold wait_for_namespace_deletion.
  destruct (negb (Shell.nonempty NAMESPACE)); [eauto|].
  destruct (negb (obs n0)); [eauto|].
  destruct (poll_terminates obs NAMESPACE 60 (S n0) 0) as [t Ht];
    [lia|unfold MAX_WAIT; lia|].
  rewrite Ht. eauto.
Qed.

End WaitForDeletion.

(** C9.  On a namespace that the cluster never had, removal fails with
    "not found" and nothing waits:
    - the removal script ends with status 1 after its existence check,
      without deleting and without a round of the wait loop;
    - [remove_version] reports the failure with the script's error text,
      as it reports every run of the script that ends with a status other
      than 0;
    - the wait script, whenever it is run on such a namespace, leaves at
      its first check without entering its polling loop. *)
Theorem remove_missing_namespace (obs : Removal.cluster) (namespace : string) :
  Shell.nonempty namespace = true ->
  (forall n, obs n = false) ->
  Removal.remove_version_sh obs namespace
  = Some [Removal.KubectlGetNamespace namespace;
          Removal.Echo (Removal.MsgNotFound namespace);
          Removal.Exit 1]
  /\ NamespaceInfo.remove_version (Removal.script_runner obs) namespace
     = Returns (NamespaceInfo.RemovalFailed (Removal.not_found_line namespace) "")
  /\ (forall (run : runner) (result : completed),
         run (NamespaceInfo.remove_call namespace) = Returns result ->
         returncode result <> 0 ->
         NamespaceInfo.remove_version run namespace
         = Returns (NamespaceInfo.RemovalFailed (stderr result) (stdout result)))
  /\ (forall n0 : nat,
         exists t,
           Removal.wait_for_namespace_deletion obs n0 namespace = Some t
           /\ Removal.wait_rounds t = 0%nat
           /\ t = [Removal.KubectlGetNamespace namespace;
                   Removal.Echo (Removal.MsgAlreadyDeleted namespace);
                   Removal.Exit 0]).
Proof.
  intros Hne Hnever.
  assert (Hs : Removal.remove_version_sh obs namespace
               = Some [Removal.KubectlGetNamespace namespace;
                       Removal.Echo (Removal.MsgNotFound namespace);
                       Removal.Exit 1]).
  { unfold Removal.remove_version_sh. rewrite Hnever. reflexivity. }
  split; [exact Hs|]. split; [|split].
  - unfold NamespaceInfo.remove_version, Removal.script_runner.
    cbn [NamespaceInfo.remove_call argv]. rewrite Hs. reflexivity.
  - intros run result Hrun Hrc. unfold NamespaceInfo.remove_version.
    rewrite Hrun. apply Z.eqb_neq in Hrc. rewrite Hrc. reflexivity.
  - intros n0. eexists. split; [|split; [|reflexivity]].
    + unfold Removal.wait_for_namespace_deletion. rewrite Hne, Hnever. reflexivity.
    + reflexivity.
Qed.

(** The namespace n8n-v9-9-9 on a cluster that never had it. *)
Lemma remove_missing_n8n_v9_9_9 :
  NamespaceInfo.remove_version (Removal.script_runner (fun _ => false)) "n8n-v9-9-9"
  = Returns (NamespaceInfo.RemovalFailed "ERROR: Namespace n8n-v9-9-9 not found" "").
Proof.
  exact (proj1 (proj2 (remove_missing_namespace (fun _ => false) "n8n-v9-9-9"
                         eq_refl (fun _ => eq_refl)))).
Defined.

(** ** Restoring a snapshot *)

(** C10.  [restore_snapshot] starts exactly one process for every request,
    the restore script with the snapshot as its argument and the line "yes"
    on its standard input, whatever the snapshot is and whatever the script
    will do; nothing in the endpoint asks for or checks a confirmation
    before that.  The answer only reflects how the script ended. *)
Theorem restore_is_always_confirmed (run : runner) (snapshot : string) :
  fst (Snapshots.restore_snapshot run snapshot)
  = [mk_call ["/workspace/scripts/restore-snapshot.sh"; snapshot]
             (Some "/workspace")
             (Some (String "y" (String "e" (String "s"
                      (String (ascii_of_nat 10) EmptyString)))))]
  /\ Forall (fun call => input call = Some ("yes" ++ Snapshots.LF))
            (fst (Snapshots.restore_snapshot run snapshot))
  /\ snd (Snapshots.restore_snapshot run snapshot)
     = match run (Snapshots.restore_call snapshot) with
       | Returns result =>
           if returncode result =? 0
           then Returns (Snapshots.Restored ("Snapshot " ++ snapshot ++ " restored")
                                            (stdout result))
           else Returns (Snapshots.RestoreFailed (stderr result) (stdout result))
       | Raises e => Raises (HTTPException 500 e)
       end.
Proof.
  split; [reflexivity|]. split.
  - constructor; [reflexivity|constructor].
  - unfold Snapshots.restore_snapshot, then_, subprocess_run, pure. cbn [snd].
    destruct (run (Snapshots.restore_call snapshot)) as [result|e]; [|reflexivity].
    destruct (returncode result =? 0); reflexivity.
Qed.

(* ================================================================== *)
(** * Part III: further properties of the same code                    *)
(* ================================================================== *)

(** ** The wait for a namespace to go away *)

Section WaitOutcome.
Import Removal.



End WaitOutcome.



(** ** Versions the backend cannot turn into a port *)

Section VersionStrings.

Lemma str_split_without (sep : ascii) (s : string) :
  string_all (fun c => negb (Ascii.eqb c sep)) s = true -> str_split sep s = [s].
Proof.
  induction s as [|c r IH]; simpl; auto.
  intros H. apply andb_true_iff in H as [Hc Hr].
  apply negb_true_iff in Hc. rewrite Hc, (IH Hr). reflexivity.
Qed.

Lemma append_cancel (s a b : string) : s ++ a = s ++ b -> a = b.
Proof.
  induction s as [|c r IH]; simpl; intros H; [exact H|].
  injection H as H. exact (IH H).
Qed.

Lemma str_of_N_injective (a b : N) : str_of_N a = str_of_N b -> a = b.
Proof.
  intros H. pose proof (py_int_str_of_N a) as Ha. rewrite H, py_int_str_of_N in Ha.
  injection Ha as Ha. lia.
Qed.

End VersionStrings.

(** X2.  When the deploy script has succeeded but the version string has
    no dot ("latest", "2"), [deploy_version] still fails: the port cannot
    be computed, and the endpoint raises the internal error 500 (from a
    [ValueError] or an [IndexError]) instead of reporting the deployment. *)
Theorem deploy_version_without_dot
        (run : runner) (request : Versions.DeployRequest) (result : completed) :
  string_all (fun c => negb (Ascii.eqb c ".")) (Versions.version request) = true ->
  run (mk_call (Versions.deploy_cmd request) (Some "/workspace") None) = Returns result ->
  returncode result = 0 ->
  exists e,
    Versions.deploy_version run request = Raises (HTTPException 500 e)
    /\ (e = ValueError \/ e = IndexError).
Proof.
  intros Hdot Hrun Hrc.
  unfold Versions.deploy_version. rewrite Hrun. cbn [bind]. rewrite Hrc. cbn [Z.eqb negb].
  unfold Versions.port_of. rewrite (str_split_without _ _ Hdot).
  cbn [index nth_error bind].
  destruct (py_int (Versions.version request)) as [major|e] eqn:E.
  - cbn [bind nth_error]. exists IndexError. split; [reflexivity|right; reflexivity].
  - cbn [bind]. exists e. split; [reflexivity|].
    left. unfold py_int in E.
    destruct (strip (Versions.version request)) as [|c r].
    + simpl in E. injection E as <-. reflexivity.
    + destruct (match String c r with
                | String "+" r0 => (1, r0)
                | String "-" r0 => (-1, r0)
                | _ => (1, String c r)
                end) as [sign body].
      destruct (int_body body 0%N false); [discriminate|].
      injection E as <-. reflexivity.
Qed.

(** The versions "latest" and "2". *)
Lemma deploy_version_without_dot_examples :
  let ok : runner := fun _ => Returns (mk_completed 0 "deployed" "") in
  Versions.deploy_version ok (Versions.mk_deploy_request "latest" "queue" false)
  = Raises (HTTPException 500 ValueError)
  /\ Versions.deploy_version ok (Versions.mk_deploy_request "2" "queue" false)
     = Raises (HTTPException 500 IndexError).
Proof.
  intros ok. split.
  - destruct (deploy_version_without_dot ok
                (Versions.mk_deploy_request "latest" "queue" false)
                (mk_completed 0 "deployed" "") eq_refl eq_refl eq_refl) as (e & H & _).
    pose proof H as H'. vm_compute in H'. injection H' as <-. exact H.
  - destruct (deploy_version_without_dot ok
                (Versions.mk_deploy_request "2" "queue" false)
                (mk_completed 0 "deployed" "") eq_refl eq_refl eq_refl) as (e & H & _).
    pose proof H as H'. vm_compute in H'. injection H' as <-. exact H.
Defined.

(** X3.  The port of a generated identity ignores the patch number: two
    versions that differ only in the patch get different namespaces and
    the same port, in the backend and in the deploy script. *)
Theorem same_port_for_every_patch (major minor patch patch' : N) :
  patch <> patch' ->
  Versions.namespace_of (Versions.version_string major minor patch)
  <> Versions.namespace_of (Versions.version_string major minor patch')
  /\ Versions.port_of (Versions.version_string major minor patch)
     = Versions.port_of (Versions.version_string major minor patch')
  /\ (forall v v' : DeployScript.vars,
         DeployScript.CUSTOM_NAME v = EmptyString ->
         DeployScript.CUSTOM_NAME v' = EmptyString ->
         DeployScript.VERSION_SLUG v = Versions.version_slug major minor patch ->
         DeployScript.VERSION_SLUG v' = Versions.version_slug major minor patch' ->
         DeployScript.MAJOR v = DeployScript.MAJOR v' ->
         DeployScript.MINOR v = DeployScript.MINOR v' ->
         DeployScript.NAMESPACE (DeployScript.derive v)
         <> DeployScript.NAMESPACE (DeployScript.derive v')
         /\ DeployScript.PORT (DeployScript.derive v)
            = DeployScript.PORT (DeployScript.derive v')).
Proof.
  intros Hp.
  assert (Hslug : Versions.version_slug major minor patch
                  <> Versions.version_slug major minor patch').
  { unfold Versions.version_slug. intros H.
    apply append_cancel in H. apply (append_cancel "-") in H.
    apply append_cancel in H. apply (append_cancel "-") in H.
    apply Hp, str_of_N_injective, H. }
  split; [|split].
  - rewrite !namespace_of_triple. intros H. apply Hslug.
    exact (append_cancel "n8n-v" _ _ H).
  - rewrite !port_of_triple. reflexivity.
  - intros v v' Hn Hn' Hs Hs' Hmaj Hmin.
    unfold DeployScript.derive. rewrite Hn, Hn', Hs, Hs', Hmaj, Hmin.
    cbn [Shell.nonempty DeployScript.NAMESPACE DeployScript.PORT].
    split; [|reflexivity].
    intros H. apply Hslug. exact (append_cancel "n8n-v" _ _ H).
Qed.

(** Versions 1.85.0 and 1.85.1: two namespaces, port 30185 for both. *)
Lemma same_port_1_85_0_and_1_85_1 :
  Versions.namespace_of "1.85.0" <> Versions.namespace_of "1.85.1"
  /\ Versions.port_of "1.85.0" = Returns 30185
  /\ Versions.port_of "1.85.1" = Returns 30185.
Proof.
  destruct (same_port_for_every_patch 1 85 0 1) as (Hns & Hport & _); [discriminate|].
  split; [exact Hns|]. split; [reflexivity|].
  change (Versions.port_of "1.85.1")
    with (Versions.port_of (Versions.version_string 1 85 1)).
  rewrite <- Hport. reflexivity.
Defined.

(** X4.  A custom name that [echo] takes for one of its options (a dash
    followed by letters n, e, E only) is not printed at all, so every such
    name is hashed as the empty input and gets the port 30295. *)
Theorem echo_option_names_share_a_port (name : string) (v : DeployScript.vars) :
  Shell.is_echo_option name = true ->
  DeployScript.CUSTOM_NAME v = name ->
  DeployScript.NAMESPACE (DeployScript.derive v) = name
  /\ DeployScript.PORT (DeployScript.derive v) = 30295.
Proof.
  intros Hopt Hv. unfold DeployScript.derive. rewrite Hv.
  assert (Hne : Shell.nonempty name = true).
  { destruct name; [discriminate|reflexivity]. }
  rewrite Hne. cbn [DeployScript.NAMESPACE DeployScript.PORT].
  split; [reflexivity|].
  unfold DeployScript.hashed_port, Shell.echo_n. rewrite Hopt. reflexivity.
Qed.

(** The names -n and -nE. *)
Lemma echo_option_names_examples :
  DeployScript.PORT (DeployScript.derive (DeployScript.mk_vars "-n" "1-85-0" 1 85)) = 30295
  /\ DeployScript.PORT (DeployScript.derive (DeployScript.mk_vars "-nE" "2-1-0" 2 1)) = 30295.
Proof.
  split.
  - exact (proj2 (echo_option_names_share_a_port "-n"
                    (DeployScript.mk_vars "-n" "1-85-0" 1 85) eq_refl eq_refl)).
  - exact (proj2 (echo_option_names_share_a_port "-nE"
                    (DeployScript.mk_vars "-nE" "2-1-0" 2 1) eq_refl eq_refl)).
Defined.

(** ** More on the composition of the Helm values *)

Section StructuredValues.
Import HelmValues.

Lemma find_snoc {A} (p : A -> bool) (l : list A) (x : A) :
  find p (l ++ [x])
  = match find p l with
    | Some y => Some y
    | None => if p x then Some x else None
    end.
Proof.
  induction l as [|a l IH]; simpl; [reflexivity|].
  destruct (p a); [reflexivity|exact IH].
Qed.

(** The dict comprehension keeps, for each key, the value of its last
    entry. *)
Lemma env_fold_get (k : string) (evs : list EnvVar) :
  forall acc : dict,
    dict_get k (fold_left (fun d ev => dict_set (key ev) (VStr (value_ ev)) d) evs acc)
    = match find (fun ev => String.eqb (key ev) k) (rev evs) with
      | Some ev => Some (VStr (value_ ev))
      | None => dict_get k acc
      end.
Proof.
  induction evs as [|ev rest IH]; intros acc; cbn [fold_left rev]; [reflexivity|].
  rewrite IH, find_snoc.
  destruct (find (fun ev0 => String.eqb (key ev0) k) (rev rest)); [reflexivity|].
  destruct (String.eqb (key ev) k) eqn:E.
  - apply String.eqb_eq in E. subst k. apply dict_get_set_same.
  - apply dict_get_set_other. rewrite String.eqb_sym. exact E.
Qed.

Lemma get_with_resources (k : string) (custom : CustomValues) (d : dict) :
  String.eqb k "resources" = false ->
  dict_get k (with_resources custom d) = dict_get k d.
Proof.
  intros Hk. unfold with_resources.
  destruct (resources custom) as [r|]; [|reflexivity].
  destruct (truthy (cpu r) || truthy (memory r)); [|reflexivity].
  apply dict_get_set_other, Hk.
Qed.

Lemma get_with_replicas (k : string) (custom : CustomValues) (d : dict) :
  String.eqb k "replicas" = false ->
  dict_get k (with_replicas custom d) = dict_get k d.
Proof.
  intros Hk. unfold with_replicas.
  destruct (workerReplicas custom); [|reflexivity].
  apply dict_get_set_other, Hk.
Qed.


End StructuredValues.

(** X5.  Environment variables given twice collapse to one key with the
    value of the last entry: under [extraEnv], a key holds the value of the
    last variable of the list with that key, and is absent when no variable
    has it.  Without variables there is no [extraEnv] at all. *)
Theorem env_vars_last_writer_wins (custom : HelmValues.CustomValues) :
  (forall (ev : HelmValues.EnvVar) (evs : list HelmValues.EnvVar) (k : string),
      HelmValues.envVars custom = Some (ev :: evs) ->
      HelmValues.lookup_path ["extraEnv"; k]
        (HelmValues.VDict (HelmValues.structured_values custom))
      = option_map (fun e => HelmValues.VStr (HelmValues.value_ e))
          (find (fun e => String.eqb (HelmValues.key e) k) (rev (ev :: evs))))
  /\ ((HelmValues.envVars custom = None \/ HelmValues.envVars custom = Some []) ->
      HelmValues.dict_get "extraEnv" (HelmValues.structured_values custom) = None).
Proof.
  split.
  - intros ev evs k Henv.
    cbn [HelmValues.lookup_path]. unfold HelmValues.structured_values.
    rewrite get_with_replicas, get_with_resources by reflexivity.
    unfold HelmValues.with_env. rewrite Henv.
    cbn [HelmValues.dict_set HelmValues.dict_get String.eqb Ascii.eqb Bool.eqb].
    unfold HelmValues.env_dict. rewrite env_fold_get.
    destruct (find _ (rev (ev :: evs))); reflexivity.
  - intros H. unfold HelmValues.structured_values.
    rewrite get_with_replicas, get_with_resources by reflexivity.
    unfold HelmValues.with_env. destruct H as [-> | ->]; reflexivity.
Qed.

(** LOG_LEVEL given twice. *)
Lemma env_vars_last_writer_example :
  let evs := [HelmValues.mk_env "LOG_LEVEL" "info"; HelmValues.mk_env "TZ" "UTC";
              HelmValues.mk_env "LOG_LEVEL" "debug"] in
  let custom := HelmValues.mk_custom (Some evs) None (Some 2) None in
  HelmValues.lookup_path ["extraEnv"; "LOG_LEVEL"]
    (HelmValues.VDict (HelmValues.structured_values custom))
  = Some (HelmValues.VStr "debug").
Proof.
  intros evs custom.
  exact (proj1 (env_vars_last_writer_wins custom)
               (HelmValues.mk_env "LOG_LEVEL" "info")
               [HelmValues.mk_env "TZ" "UTC"; HelmValues.mk_env "LOG_LEVEL" "debug"]
               "LOG_LEVEL" eq_refl).
Defined.



Section MergeMore.
Import HelmValues MergePaths.

(** What the override does not reach stays as it was. *)
Lemma deep_merge_untouched (path : list string) :
  forall (base raw : dict) (v : value),
    wf_value (VDict raw) = true ->
    untouched path raw = true ->
    lookup_path path (VDict base) = Some v ->
    lookup_path path (VDict (deep_merge base raw)) = Some v.
Proof.
  induction path as [|k rest IH]; intros base raw v Hwf Hun Hl; [discriminate|].
  cbn [untouched] in Hun. cbn [lookup_path] in Hl |- *.
  destruct (dict_get k base) as [b|] eqn:Hb; [|discriminate].
  destruct (dict_get k raw) as [o|] eqn:Hk.
  - destruct o as [| | | | | |o]; try discriminate.
    rewrite (deep_merge_get _ _ _ _ (wf_dict_unique _ Hwf) Hk), Hb.
    pose proof (wf_dict_get _ _ _ Hwf Hk) as Hwfo.
    destruct rest as [|k' rest']; [discriminate|].
    destruct b as [| | | | | |r]; try discriminate.
    cbn [merged_value]. apply IH; assumption.
  - rewrite (deep_merge_get_absent _ _ _ Hk), Hb. exact Hl.
Qed.

Lemma dict_set_absent (k : string) (v : value) (d : dict) :
  dict_get k d = None -> dict_set k v d = (d ++ [(k, v)])%list.
Proof.
  induction d as [|[k' v'] rest IH]; simpl; [reflexivity|].
  destruct (String.eqb k k'); [discriminate|].
  intros H. rewrite (IH H). reflexivity.
Qed.

Lemma dict_get_app_absent (k : string) (d d' : dict) :
  dict_get k d = None -> dict_get k (d ++ d')%list = dict_get k d'.
Proof.
  induction d as [|[k' v'] rest IH]; simpl; [reflexivity|].
  destruct (String.eqb k k'); [discriminate|exact IH].
Qed.

(** Keys that are all new are appended in the override's order. *)
Lemma fold_merge_new (items : dict) :
  forall acc : dict,
    unique_keys (map fst items) = true ->
    (forall k v, In (k, v) items -> dict_get k acc = None) ->
    fold_left merge_item items acc = (acc ++ items)%list.
Proof.
  induction items as [|[k v] rest IH]; intros acc Hu Hnew;
    cbn [fold_left map fst unique_keys] in *.
  - rewrite app_nil_r. reflexivity.
  - apply andb_true_iff in Hu as [Hfresh Hu]. apply negb_true_iff in Hfresh.
    assert (Hk : dict_get k acc = None) by (apply (Hnew k v); left; reflexivity).
    assert (Hstep : merge_item acc (k, v) = (acc ++ [(k, v)])%list).
    { unfold merge_item. rewrite Hk. apply dict_set_absent, Hk. }
    rewrite Hstep, IH.
    + rewrite <- app_assoc. reflexivity.
    + exact Hu.
    + intros k' v' Hin. rewrite dict_get_app_absent.
      * simpl. destruct (String.eqb k' k) eqn:E; [|reflexivity].
        apply String.eqb_eq in E. subst k'. exfalso.
        assert (Hex : existsb (String.eqb k) (map fst rest) = true).
        { apply existsb_exists. exists k. split; [|apply String.eqb_refl].
          apply in_map_iff. exists (k, v'). split; [reflexivity|exact Hin]. }
        rewrite Hex in Hfresh. discriminate.
      * apply (Hnew k' v'). right. exact Hin.
Qed.

Lemma merge_item_keeps (k : string) (d : dict) (kv : string * value) :
  dict_get k d <> None -> dict_get k (merge_item d kv) <> None.
Proof.
  destruct kv as [k' v]. intros H.
  destruct (String.eqb k k') eqn:E.
  - apply String.eqb_eq in E. subst k'. rewrite merge_item_get_same. discriminate.
  - rewrite (merge_item_get_other _ _ _ _ E). exact H.
Qed.

Lemma fold_merge_keeps (k : string) (items : dict) :
  forall d, dict_get k d <> None -> dict_get k (fold_left merge_item items d) <> None.
Proof.
  induction items as [|kv rest IH]; intros d H; cbn [fold_left]; [exact H|].
  apply IH, merge_item_keeps, H.
Qed.

Lemma dict_set_same (k : string) (w : value) (d : dict) :
  dict_get k d = Some w -> dict_set k w d = d.
Proof.
  induction d as [|[k' v'] rest IH]; simpl; [discriminate|].
  destruct (String.eqb k k') eqn:E.
  - apply String.eqb_eq in E. subst k'. intros H. injection H as ->. reflexivity.
  - intros H. rewrite (IH H). reflexivity.
Qed.

Lemma fold_merge_noop (items : dict) (d : dict) :
  (forall k v, In (k, v) items -> merge_item d (k, v) = d) ->
  fold_left merge_item items d = d.
Proof.
  induction items as [|[k v] rest IH]; intros H; cbn [fold_left]; [reflexivity|].
  rewrite (H k v) by (left; reflexivity). apply IH.
  intros k' v' Hin. apply H. right. exact Hin.
Qed.

Lemma unique_in_get (k : string) (v : value) (items : dict) :
  unique_keys (map fst items) = true -> In (k, v) items -> dict_get k items = Some v.
Proof.
  induction items as [|[k' v'] rest IH]; intros Hu Hin; [destruct Hin|].
  cbn [map fst unique_keys dict_get] in *.
  apply andb_true_iff in Hu as [Hfresh Hu].
  destruct Hin as [Heq|Hin].
  - injection Heq as -> ->. rewrite String.eqb_refl. reflexivity.
  - destruct (String.eqb k k') eqn:E; [|exact (IH Hu Hin)].
    apply String.eqb_eq in E. subst k'. exfalso.
    apply negb_true_iff in Hfresh.
    assert (Hex : existsb (String.eqb k) (map fst rest) = true).
    { apply existsb_exists. exists k. split; [|apply String.eqb_refl].
      apply in_map_iff. exists (k, v). split; [reflexivity|exact Hin]. }
    rewrite Hex in Hfresh. discriminate.
Qed.

Lemma height_item (k : string) (v : value) (items : dict) :
  dict_get k items = Some v -> (height v < height (VDict items))%nat.
Proof.
  intros H.
  assert (Hle : (height v <= list_max (map (fun kv => height (snd kv)) items))%nat).
  { revert H. induction items as [|[k' v'] rest IH]; cbn [dict_get]; [discriminate|].
    change (list_max (map (fun kv => height (snd kv)) ((k', v') :: rest)))
      with (Nat.max (height v') (list_max (map (fun kv => height (snd kv)) rest))).
    destruct (String.eqb k k').
    - intros H. injection H as ->. apply Nat.le_max_l.
    - intros H. specialize (IH H).
      eapply Nat.le_trans; [exact IH|apply Nat.le_max_r]. }
  cbn [height]. lia.
Qed.

(** Merging a mapping over itself changes nothing. *)
Lemma deep_merge_self (n : nat) :
  forall o : dict,
    (height (VDict o) <= n)%nat -> wf_value (VDict o) = true -> deep_merge o o = o.
Proof.
  induction n as [|n IH]; intros o Hh Hwf.
  - cbn [height] in Hh. lia.
  - unfold deep_merge. rewrite merge_into_dict. apply fold_merge_noop.
    intros k v Hin.
    pose proof (unique_in_get _ _ _ (wf_dict_unique _ Hwf) Hin) as Hg.
    unfold merge_item. rewrite Hg.
    destruct v as [| | | | | |o']; try (apply dict_set_same, Hg).
    change (merge_into o' (VDict o')) with (deep_merge o' o').
    rewrite IH.
    + apply dict_set_same, Hg.
    + pose proof (height_item _ _ _ Hg). lia.
    + exact (wf_dict_get _ _ _ Hwf Hg).
Qed.

(** Merging the same override a second time changes nothing. *)
Lemma deep_merge_twice (n : nat) :
  forall o r : dict,
    (height (VDict o) <= n)%nat -> wf_value (VDict o) = true ->
    deep_merge (deep_merge r o) o = deep_merge r o.
Proof.
  induction n as [|n IH]; intros o r Hh Hwf.
  - cbn [height] in Hh. lia.
  - unfold deep_merge at 1. rewrite merge_into_dict. apply fold_merge_noop.
    intros k v Hin.
    pose proof (unique_in_get _ _ _ (wf_dict_unique _ Hwf) Hin) as Hg.
    pose proof (deep_merge_get k v r o (wf_dict_unique _ Hwf) Hg) as Hd.
    pose proof (height_item _ _ _ Hg) as Hlt.
    pose proof (wf_dict_get _ _ _ Hwf Hg) as Hwfv.
    unfold merge_item. rewrite Hd. unfold merged_value in *.
    destruct v as [| | | | | |o'].
    1-6: destruct (dict_get k r) as [[| | | | | |r']|]; apply dict_set_same, Hd.
    destruct (dict_get k r) as [[| | | | | |r']|];
      try (change (merge_into o' (VDict o')) with (deep_merge o' o');
           rewrite (deep_merge_self n) by (assumption || lia);
           apply dict_set_same, Hd).
    change (merge_into (deep_merge r' o') (VDict o'))
      with (deep_merge (deep_merge r' o') o').
    rewrite IH by (assumption || lia).
    apply dict_set_same, Hd.
Qed.

End MergeMore.

(** X7.  A structured value that the raw override does not reach survives
    the merge: when following a path of keys through the raw mapping ends
    at a missing key, the value the structured fields put under that path
    is the value of the result. *)
Theorem structured_values_survive_the_merge
        (safe_load : string -> outcome HelmValues.value)
        (custom : HelmValues.CustomValues) (text : string) (raw : HelmValues.dict)
        (path : list string) (v : HelmValues.value) :
  HelmValues.rawYaml custom = Some text ->
  Shell.nonempty text = true ->
  safe_load text = Returns (HelmValues.VDict raw) ->
  HelmValues.wf_value (HelmValues.VDict raw) = true ->
  MergePaths.untouched path raw = true ->
  HelmValues.lookup_path path (HelmValues.VDict (HelmValues.structured_values custom))
  = Some v ->
  exists values,
    HelmValues.build_helm_values safe_load custom = Returns values
    /\ HelmValues.lookup_path path (HelmValues.VDict values) = Some v.
Proof.
  intros Hraw Hne Hload Hwf Hun Hl.
  unfold HelmValues.build_helm_values. rewrite Hraw, Hne, Hload.
  eexists. split; [reflexivity|].
  apply deep_merge_untouched; assumption.
Qed.

(** CPU and memory limits from the form, a raw override of the CPU limit
    at the form's own path: the memory limit stays. *)
Lemma structured_memory_survives :
  let custom :=
    HelmValues.mk_custom None (Some (HelmValues.mk_resources (Some "500m") (Some "1Gi")))
                         None (Some "resources: {main: {limits: {cpu: 250m}}}") in
  let raw :=
    [("resources",
      HelmValues.VDict
        [("main", HelmValues.VDict
                    [("limits", HelmValues.VDict [("cpu", HelmValues.VStr "250m")])])])] in
  exists values,
    HelmValues.build_helm_values (fun _ => Returns (HelmValues.VDict raw)) custom
    = Returns values
    /\ HelmValues.lookup_path ["resources"; "main"; "limits"; "memory"]
         (HelmValues.VDict values) = Some (HelmValues.VStr "1Gi").
Proof.
  intros custom raw.
  exact (structured_values_survive_the_merge
           (fun _ => Returns (HelmValues.VDict raw)) custom
           "resources: {main: {limits: {cpu: 250m}}}" raw
           ["resources"; "main"; "limits"; "memory"] (HelmValues.VStr "1Gi")
           eq_refl eq_refl eq_refl eq_refl eq_refl eq_refl).
Defined.

(** X8.  With no structured field set, the values are the raw mapping
    itself, key for key and in its order; and whatever the raw mapping is,
    no top-level key of the structured values is lost in the merge. *)
Theorem raw_alone_and_no_key_lost
        (safe_load : string -> outcome HelmValues.value)
        (custom : HelmValues.CustomValues) (text : string) (raw : HelmValues.dict) :
  HelmValues.rawYaml custom = Some text ->
  Shell.nonempty text = true ->
  safe_load text = Returns (HelmValues.VDict raw) ->
  (HelmValues.structured_values custom = [] ->
   HelmValues.unique_keys (map fst raw) = true ->
   HelmValues.build_helm_values safe_load custom = Returns raw)
  /\ (forall k : string,
         HelmValues.dict_get k (HelmValues.structured_values custom) <> None ->
         exists values,
           HelmValues.build_helm_values safe_load custom = Returns values
           /\ HelmValues.dict_get k values <> None).
Proof.
  intros Hraw Hne Hload.
  unfold HelmValues.build_helm_values. rewrite Hraw, Hne, Hload.
  split.
  - intros Hempty Hu. rewrite Hempty. f_equal.
    unfold HelmValues.deep_merge. rewrite merge_into_dict.
    rewrite fold_merge_new; [reflexivity|exact Hu|reflexivity].
  - intros k Hk. eexists. split; [reflexivity|].
    unfold HelmValues.deep_merge. rewrite merge_into_dict.
    apply fold_merge_keeps, Hk.
Qed.

(** A raw override alone, and one next to worker replicas. *)
Lemma raw_alone_example :
  let raw := [("n8nConfig", HelmValues.VDict [("timezone", HelmValues.VStr "Europe/London")]);
              ("replicas", HelmValues.VInt 3)] in
  let safe_load := fun _ : string => Returns (HelmValues.VDict raw) in
  HelmValues.build_helm_values safe_load
    (HelmValues.mk_custom None None None (Some "n8nConfig: ...")) = Returns raw
  /\ exists values,
       HelmValues.build_helm_values safe_load
         (HelmValues.mk_custom None None (Some 2) (Some "n8nConfig: ...")) = Returns values
       /\ HelmValues.dict_get "replicas" values <> None.
Proof.
  intros raw safe_load. split.
  - exact (proj1 (raw_alone_and_no_key_lost safe_load
                    (HelmValues.mk_custom None None None (Some "n8nConfig: ..."))
                    "n8nConfig: ..." raw eq_refl eq_refl eq_refl) eq_refl eq_refl).
  - apply (proj2 (raw_alone_and_no_key_lost safe_load
                    (HelmValues.mk_custom None None (Some 2) (Some "n8nConfig: ..."))
                    "n8nConfig: ..." raw eq_refl eq_refl eq_refl) "replicas").
    discriminate.
Defined.

(** X9.  [deep_merge] is idempotent in its override: merging the same
    mapping a second time over the result changes nothing, and a mapping
    merged over itself is unchanged. *)
Theorem deep_merge_is_idempotent (base raw : HelmValues.dict) :
  HelmValues.wf_value (HelmValues.VDict raw) = true ->
  HelmValues.deep_merge (HelmValues.deep_merge base raw) raw
  = HelmValues.deep_merge base raw
  /\ HelmValues.deep_merge raw raw = raw.
Proof.
  intros Hwf. split.
  - apply (deep_merge_twice (MergePaths.height (HelmValues.VDict raw))); [lia|exact Hwf].
  - apply (deep_merge_self (MergePaths.height (HelmValues.VDict raw))); [lia|exact Hwf].
Qed.

(** The override of the CPU limit, applied twice. *)
Lemma deep_merge_twice_example :
  let base := HelmValues.structured_values
                (HelmValues.mk_custom None
                   (Some (HelmValues.mk_resources (Some "500m") None)) (Some 2) None) in
  let raw := [("resources", HelmValues.VDict [("cpu", HelmValues.VStr "250m")]);
              ("replicas", HelmValues.VDict [("workers", HelmValues.VInt 4)])] in
  HelmValues.deep_merge (HelmValues.deep_merge base raw) raw
  = HelmValues.deep_merge base raw.
Proof.
  intros base raw.
  exact (proj1 (deep_merge_is_idempotent base raw eq_refl)).
Defined.

(** ** What the deploy form sends *)



(** ** Rows of the custom values form *)

Section FormRows.
Import HelmValues CustomValuesForm.

Lemma without_last (evs : list EnvVar) (ev : EnvVar) :
  without (List.length evs) (evs ++ [ev]) = evs.
Proof. induction evs as [|e rest IH]; simpl; [reflexivity|]. rewrite IH. reflexivity. Qed.

Lemma filtered_added_row (value : CustomValues) :
  envVars (DeployForm.filtered (addEnvVar value))
  = Some (filter (fun e => Shell.nonempty (key e) && Shell.nonempty (value_ e))
                 (rows value)).
Proof.
  unfold DeployForm.filtered, addEnvVar. cbn [envVars option_map].
  rewrite filter_app. cbn [filter key value_ Shell.nonempty andb].
  rewrite app_nil_r. reflexivity.
Qed.

End FormRows.

(** X11.  A row added to the form and left empty has no effect: the Helm
    values built from what the deploy handler sends are the same as without
    the row, and so is the decision to send custom values at all.
    Removing the row just added gives back the rows there were. *)
Theorem empty_form_row_has_no_effect (value : HelmValues.CustomValues) :
  HelmValues.structured_values (DeployForm.filtered (CustomValuesForm.addEnvVar value))
  = HelmValues.structured_values (DeployForm.filtered value)
  /\ DeployForm.hasCustomValues (DeployForm.filtered (CustomValuesForm.addEnvVar value))
     = DeployForm.hasCustomValues (DeployForm.filtered value)
  /\ CustomValuesForm.rows
       (CustomValuesForm.removeEnvVar (List.length (CustomValuesForm.rows value))
                                      (CustomValuesForm.addEnvVar value))
     = CustomValuesForm.rows value.
Proof.
  pose proof (filtered_added_row value) as Hadd.
  split; [|split].
  - unfold HelmValues.structured_values, HelmValues.with_env,
      HelmValues.with_resources, HelmValues.with_replicas.
    rewrite Hadd. unfold CustomValuesForm.rows.
    unfold DeployForm.filtered, CustomValuesForm.addEnvVar.
    cbn [HelmValues.envVars HelmValues.resources HelmValues.workerReplicas].
    destruct (HelmValues.envVars value); reflexivity.
  - unfold DeployForm.hasCustomValues. rewrite Hadd. unfold CustomValuesForm.rows.
    unfold DeployForm.filtered, CustomValuesForm.addEnvVar.
    cbn [HelmValues.envVars HelmValues.resources HelmValues.workerReplicas
         HelmValues.rawYaml].
    destruct (HelmValues.envVars value); reflexivity.
  - unfold CustomValuesForm.removeEnvVar, CustomValuesForm.addEnvVar, CustomValuesForm.rows.
    cbn [HelmValues.envVars]. apply without_last.
Qed.

(** ** The list of deployed versions *)

Section VersionRows.
Import PyText VersionsList.

Lemma string_all_app (p : ascii -> bool) (s t : string) :
  string_all p (s ++ t) = string_all p s && string_all p t.
Proof.
  induction s as [|c r IH]; simpl; [reflexivity|].
  rewrite IH. apply andb_assoc.
Qed.

Lemma split_ws_cons (c : ascii) (r : string) :
  split_ws (String c r)
  = if is_space c then split_ws r
    else match r with
         | EmptyString => [String c EmptyString]
         | String c' _ =>
             if is_space c' then String c EmptyString :: split_ws r
             else match split_ws r with
                  | w :: ws => String c w :: ws
                  | [] => [String c EmptyString]
                  end
         end.
Proof. destruct r; reflexivity. Qed.

(** A word, closed by a whitespace character. *)
Lemma split_ws_word (w : string) (c : ascii) (rest : string) :
  Shell.nonempty w = true -> string_all no_space w = true -> is_space c = true ->
  split_ws (w ++ String c rest) = w :: split_ws (String c rest).
Proof.
  intros Hne Hw Hc. induction w as [|a w IH]; [discriminate|].
  cbn [string_all] in Hw. apply andb_true_iff in Hw as [Ha Hw].
  apply negb_true_iff in Ha.
  change (String a w ++ String c rest) with (String a (w ++ String c rest)).
  rewrite split_ws_cons, Ha.
  destruct w as [|b w].
  - cbn [append]. rewrite Hc. reflexivity.
  - specialize (IH eq_refl Hw).
    cbn [string_all] in Hw. apply andb_true_iff in Hw as [Hb _].
    apply negb_true_iff in Hb.
    cbn [append] in *. rewrite Hb, IH. reflexivity.
Qed.

Lemma split_ws_last_word (w : string) :
  Shell.nonempty w = true -> string_all no_space w = true -> split_ws w = [w].
Proof.
  intros Hne Hw. induction w as [|a w IH]; [discriminate|].
  cbn [string_all] in Hw. apply andb_true_iff in Hw as [Ha Hw].
  apply negb_true_iff in Ha.
  rewrite split_ws_cons, Ha.
  destruct w as [|b w]; [reflexivity|].
  specialize (IH eq_refl Hw).
  cbn [string_all] in Hw. apply andb_true_iff in Hw as [Hb _].
  apply negb_true_iff in Hb. rewrite Hb, IH. reflexivity.
Qed.

Lemma split_ws_spaces (sp rest : string) :
  string_all is_space sp = true -> split_ws (sp ++ rest) = split_ws rest.
Proof.
  induction sp as [|c sp IH]; [reflexivity|].
  cbn [string_all append]. intros H. apply andb_true_iff in H as [Hc Hsp].
  rewrite split_ws_cons, Hc. exact (IH Hsp).
Qed.

(** A word followed by a gap of whitespace. *)
Lemma split_ws_field (w sp rest : string) :
  Shell.nonempty w = true -> string_all no_space w = true ->
  Shell.nonempty sp = true -> string_all is_space sp = true ->
  split_ws (w ++ sp ++ rest) = w :: split_ws rest.
Proof.
  intros Hw1 Hw2 Hs1 Hs2. destruct sp as [|c sp]; [discriminate|].
  cbn [string_all] in Hs2. apply andb_true_iff in Hs2 as [Hc Hsp].
  change (String c sp ++ rest) with (String c (sp ++ rest)).
  rewrite (split_ws_word _ _ _ Hw1 Hw2 Hc).
  rewrite split_ws_cons, Hc. f_equal. apply split_ws_spaces, Hsp.
Qed.

Lemma digits_no_space (s : string) :
  string_all is_digit s = true -> string_all no_space s = true.
Proof.
  induction s as [|c r IH]; simpl; [reflexivity|].
  intros H. apply andb_true_iff in H as [Hc Hr].
  unfold no_space at 1. rewrite (digit_not_space _ Hc), (IH Hr). reflexivity.
Qed.

Lemma generated_namespace_word (major minor patch : N) :
  let ns := Versions.namespace_of (Versions.version_string major minor patch) in
  Shell.nonempty ns = true /\ string_all no_space ns = true.
Proof.
  cbv zeta. rewrite namespace_of_triple. split; [reflexivity|].
  unfold Versions.version_slug.
  rewrite !string_all_app.
  rewrite !(digits_no_space _ (str_of_N_digits _)). reflexivity.
Qed.

(** Only [int()] can make a row fail. *)
Lemma versions_row_raises (line : string) (e : exn) :
  versions_row line = Raises e -> e = ValueError.
Proof.
  assert (Hint : forall s e', py_int s = Raises e' -> e' = ValueError).
  { intros s e'. unfold py_int.
    destruct (match strip s with
              | String "+" r0 => (1, r0)
              | String "-" r0 => (-1, r0)
              | _ => (1, strip s)
              end) as [sign body].
    destruct (int_body body 0%N false); [discriminate|].
    intros H. injection H as <-. reflexivity. }
  unfold versions_row.
  destruct (skipped line); [discriminate|].
  destruct (split_ws line) as [|ns [|md [|st [|pods more]]]]; try discriminate.
  destruct (NamespaceInfo.version_match ns) as [[[g1 g2] g3]|]; [|discriminate].
  destruct (str_split "/" pods) as [|p0 [|p1 ps]]; cbn [bind].
  - discriminate.
  - destruct (py_int p0) eqn:E0; cbn [bind]; [discriminate|].
    intros H. injection H as <-. exact (Hint _ _ E0).
  - destruct (py_int p0) eqn:E0; cbn [bind].
    + destruct (py_int p1) eqn:E1; cbn [bind]; [discriminate|].
      intros H. injection H as <-. exact (Hint _ _ E1).
    + intros H. injection H as <-. exact (Hint _ _ E0).
Qed.

Lemma versions_rows_raise (line : string) (lines : list string) :
  In line lines -> versions_row line = Raises ValueError ->
  forall acc, versions_rows lines acc = Raises ValueError.
Proof.
  induction lines as [|l rest IH]; intros Hin Hrow acc; [destruct Hin|].
  cbn [versions_rows].
  destruct (versions_row l) as [[v|]|e] eqn:E.
  - destruct Hin as [->|Hin]; [congruence|]. apply IH; assumption.
  - destruct Hin as [->|Hin]; [congruence|]. apply IH; assumption.
  - rewrite (versions_row_raises _ _ E). reflexivity.
Qed.

End VersionRows.

(** X12.  A row of the listing for a generated namespace is read back in
    full: with the fields namespace, mode, status, pods (ready/total) and
    URL separated by any whitespace, the entry has the version
    major.minor.patch the namespace was generated from, the mode and status
    in lower case, and the two pod counts as numbers. *)
Theorem versions_row_of_generated_namespace
        (major minor patch ready total : N)
        (mode status url sp1 sp2 sp3 sp4 : string) :
  let namespace := Versions.namespace_of (Versions.version_string major minor patch) in
  let pods := str_of_N ready ++ "/" ++ str_of_N total in
  let line := namespace ++ sp1 ++ mode ++ sp2 ++ status ++ sp3 ++ pods ++ sp4 ++ url in
  Forall (fun w => Shell.nonempty w = true /\ string_all PyText.no_space w = true)
         [mode; status; url] ->
  Forall (fun sp => Shell.nonempty sp = true /\ string_all is_space sp = true)
         [sp1; sp2; sp3; sp4] ->
  VersionsList.skipped line = false ->
  VersionsList.versions_row line
  = Returns (Some (VersionsList.mk_entry
                     (Versions.version_string major minor patch) namespace
                     (PyText.lower mode) (PyText.lower status)
                     (Z.of_N ready) (Z.of_N total) url)).
Proof.
  intros namespace pods line Hwords Hgaps Hskip.
  inversion Hwords as [|? ? [Hm1 Hm2] Hw1]; subst.
  inversion Hw1 as [|? ? [Hs1 Hs2] Hw2]; subst.
  inversion Hw2 as [|? ? [Hu1 Hu2] _]; subst.
  inversion Hgaps as [|? ? [Ha1 Ha2] Hg1]; subst.
  inversion Hg1 as [|? ? [Hb1 Hb2] Hg2]; subst.
  inversion Hg2 as [|? ? [Hc1 Hc2] Hg3]; subst.
  inversion Hg3 as [|? ? [Hd1 Hd2] _]; subst.
  destruct (generated_namespace_word major minor patch) as [Hn1 Hn2].
  assert (Hp : Shell.nonempty pods = true /\ string_all PyText.no_space pods = true).
  { subst pods. split.
    - destruct (str_of_N_nonempty ready) as (c & r & ->). reflexivity.
    - rewrite !string_all_app, !(digits_no_space _ (str_of_N_digits _)). reflexivity. }
  destruct Hp as [Hp1 Hp2].
  unfold VersionsList.versions_row. rewrite Hskip.
  subst line.
  rewrite (split_ws_field _ _ _ Hn1 Hn2 Ha1 Ha2).
  rewrite (split_ws_field _ _ _ Hm1 Hm2 Hb1 Hb2).
  rewrite (split_ws_field _ _ _ Hs1 Hs2 Hc1 Hc2).
  rewrite (split_ws_field _ _ _ Hp1 Hp2 Hd1 Hd2).
  rewrite (split_ws_last_word _ Hu1 Hu2).
  subst namespace. rewrite version_match_generated.
  subst pods.
  change (str_of_N ready ++ "/" ++ str_of_N total)
    with (str_of_N ready ++ String "/" (str_of_N total)).
  rewrite str_split_field by (reflexivity || apply str_of_N_digits).
  rewrite str_split_digits by (reflexivity || apply str_of_N_digits).
  rewrite !py_int_str_of_N. reflexivity.
Qed.

(** The row of n8n-v1-85-0 in queue mode, four of four pods ready. *)
Lemma versions_row_n8n_v1_85_0 :
  VersionsList.versions_row
    "n8n-v1-85-0  Queue    Running  4/4   http://localhost:30185"
  = Returns (Some (VersionsList.mk_entry "1.85.0" "n8n-v1-85-0" "queue" "running" 4 4
                                         "http://localhost:30185")).
Proof.
  apply (versions_row_of_generated_namespace 1 85 0 4 4 "Queue" "Running"
           "http://localhost:30185" "  " "    " "  " "   ").
  - repeat constructor.
  - repeat constructor.
  - reflexivity.
Defined.

(** X13.  One row with a pods field that does not start with a number makes
    the whole listing fail: [parse_versions_output] raises [ValueError],
    whatever the other rows are. *)
Theorem bad_pods_field_fails_the_listing
        (output line namespace mode status pods p0 : string)
        (more ps : list string) (g : string * string * string) :
  In line (str_split PyText.NL (strip output)) ->
  VersionsList.skipped line = false ->
  PyText.split_ws line = namespace :: mode :: status :: pods :: more ->
  NamespaceInfo.version_match namespace = Some g ->
  str_split "/" pods = p0 :: ps ->
  py_int p0 = Raises ValueError ->
  VersionsList.parse_versions_output output = Raises ValueError.
Proof.
  intros Hin Hskip Hsplit Hmatch Hpods Hint.
  unfold VersionsList.parse_versions_output.
  apply (versions_rows_raise line); [exact Hin|].
  unfold VersionsList.versions_row. rewrite Hskip, Hsplit, Hmatch.
  destruct g as [[g1 g2] g3]. rewrite Hpods, Hint. reflexivity.
Qed.

(** A good row, then a row whose pods field reads "pending". *)
Lemma bad_pods_field_example :
  let nl := String PyText.NL EmptyString in
  VersionsList.parse_versions_output
    ("n8n-v1-85-0 queue Running 4/4 http://localhost:30185" ++ nl
       ++ "n8n-v2-1-0 regular Pending pending" ++ nl)
  = Raises ValueError.
Proof.
  intros nl.
  apply (bad_pods_field_fails_the_listing _ "n8n-v2-1-0 regular Pending pending"
           "n8n-v2-1-0" "regular" "Pending" "pending" "pending" [] [] ("2", "1", "0")).
  - right. left. reflexivity.
  - reflexivity.
  - reflexivity.
  - reflexivity.
  - reflexivity.
  - reflexivity.
Defined.

(** ** The list of snapshots, as the API reads it *)

Section SnapshotRows.
Import Snapshots PyText SnapshotsApi.

Lemma take_n_digits_app (ds rest : string) :
  string_all is_digit ds = true ->
  take_n_digits (String.length ds) (ds ++ rest) = Some (ds, rest).
Proof.
  induction ds as [|c r IH]; [reflexivity|].
  cbn [string_all String.length append take_n_digits].
  intros H. apply andb_true_iff in H as [Hc Hr].
  rewrite Hc, (IH Hr). reflexivity.
Qed.

Lemma stamp_match_here (s : string) (g : string * string) :
  stamp_here s = Some g -> stamp_match s = Some g.
Proof. intros H. destruct s; cbn [stamp_match]; rewrite H; reflexivity. Qed.

Lemma substring_whole (a : string) : substring 0 (String.length a) a = a.
Proof. induction a as [|c r IH]; [reflexivity|]. simpl. rewrite IH. reflexivity. Qed.

Lemma substring_head (a b : string) :
  substring 0 (String.length a) (a ++ b) = a.
Proof.
  induction a as [|c r IH]; simpl.
  - destruct b; reflexivity.
  - rewrite IH. reflexivity.
Qed.

Lemma substring_skip (a b : string) (i n : nat) :
  substring (String.length a + i) n (a ++ b) = substring i n b.
Proof. induction a as [|c r IH]; simpl; [reflexivity|]. exact IH. Qed.

(** The three fields of a run of digits, cut at [p] and [q]. *)
Lemma slices_of_fields (a b c : string) (p q r : nat) :
  String.length a = p -> (p + String.length b)%nat = q ->
  (q + String.length c)%nat = r ->
  slice 0 p (a ++ b ++ c) = a /\ slice p q (a ++ b ++ c) = b
  /\ slice q r (a ++ b ++ c) = c.
Proof.
  intros <- <- <-. unfold slice. repeat split.
  - rewrite Nat.sub_0_r. apply substring_head.
  - replace (String.length a + String.length b - String.length a)%nat
      with (String.length b) by lia.
    rewrite <- (Nat.add_0_r (String.length a)) at 1.
    rewrite substring_skip. apply substring_head.
  - replace (String.length a + String.length b + String.length c
             - (String.length a + String.length b))%nat
      with (String.length c) by lia.
    rewrite substring_skip.
    rewrite <- (Nat.add_0_r (String.length b)) at 1.
    rewrite substring_skip. apply substring_whole.
Qed.

Lemma rstrip_app (a b : string) :
  rstrip (a ++ b)
  = match rstrip b with
    | EmptyString => rstrip a
    | String _ _ => a ++ rstrip b
    end.
Proof.
  induction a as [|c a IH].
  - cbn [append rstrip]. destruct (rstrip b); reflexivity.
  - cbn [append rstrip]. rewrite IH.
    destruct (rstrip b) as [|x r]; [reflexivity|].
    destruct a; reflexivity.
Qed.

Lemma rstrip_no_space (n : string) :
  string_all no_space n = true -> rstrip n = n.
Proof.
  induction n as [|c r IH]; [reflexivity|].
  cbn [string_all rstrip]. intros H. apply andb_true_iff in H as [Hc Hr].
  apply negb_true_iff in Hc. rewrite (IH Hr), Hc. destruct r; reflexivity.
Qed.

Lemma lstrip_no_space (n : string) :
  string_all no_space n = true -> lstrip n = n.
Proof.
  destruct n as [|c r]; [reflexivity|].
  cbn [string_all lstrip]. intros H. apply andb_true_iff in H as [Hc _].
  apply negb_true_iff in Hc. rewrite Hc. reflexivity.
Qed.

Lemma no_space_no_NL (n : string) :
  string_all no_space n = true -> string_all no_NL n = true.
Proof.
  induction n as [|c r IH]; [reflexivity|].
  cbn [string_all]. intros H. apply andb_true_iff in H as [Hc Hr].
  rewrite (IH Hr), andb_true_r.
  unfold no_NL. apply negb_true_iff. apply negb_true_iff in Hc.
  destruct (Ascii.eqb c NL) eqn:E; [|reflexivity].
  apply Ascii.eqb_eq in E. subst c. discriminate.
Qed.

Lemma str_split_line (l rest : string) :
  string_all no_NL l = true ->
  str_split NL (l ++ String NL rest) = l :: str_split NL rest.
Proof.
  induction l as [|c r IH]; cbn [append string_all str_split].
  - intros _. rewrite Ascii.eqb_refl. reflexivity.
  - intros H. apply andb_true_iff in H as [Hc Hr].
    apply negb_true_iff in Hc. rewrite Hc, (IH Hr). reflexivity.
Qed.

(** What is printed, less the last line feed, splits into the lines again. *)
Lemma split_printed (init : list string) (final : string) :
  Forall (fun l => string_all no_NL l = true) (init ++ [final])%list ->
  rstrip final = final -> Shell.nonempty final = true ->
  Shell.nonempty (rstrip (printed (init ++ [final])%list)) = true
  /\ str_split NL (rstrip (printed (init ++ [final])%list)) = (init ++ [final])%list.
Proof.
  intros Hnl Hfin Hne. induction init as [|l init IH].
  - cbn [app printed]. rewrite rstrip_app.
    change (rstrip (String NL "")) with EmptyString. cbv iota.
    rewrite Hfin. split; [exact Hne|].
    apply str_split_without. inversion Hnl; assumption.
  - inversion Hnl as [|? ? Hl Hrest]; subst.
    destruct (IH Hrest) as [IH1 IH2].
    change (printed ((l :: init) ++ [final])%list)
      with (l ++ String NL (printed (init ++ [final])%list)).
    rewrite rstrip_app.
    assert (E : rstrip (String NL (printed (init ++ [final])%list))
                = String NL (rstrip (printed (init ++ [final])%list))).
    { cbn [rstrip]. destruct (rstrip (printed (init ++ [final])%list)); [discriminate|].
      reflexivity. }
    rewrite E. split.
    + destruct l; reflexivity.
    + rewrite (str_split_line _ _ Hl), IH2. reflexivity.
Qed.

Lemma ends_with_cons (suffix : string) (c : ascii) (r : string) :
  ends_with suffix r = true -> ends_with suffix (String c r) = true.
Proof. intros H. cbn [ends_with]. rewrite H. apply orb_true_r. Qed.

Lemma snapshot_row_indented (n : string) :
  ends_with ".sql" n = true -> string_all no_space n = true ->
  snapshot_row ("  " ++ n) = [mk_snapshot n (timestamp_of n)].
Proof.
  intros Hsql Hn.
  assert (Hstrip : strip ("  " ++ n) = n).
  { unfold strip. change (lstrip ("  " ++ n)) with (lstrip n).
    rewrite (lstrip_no_space _ Hn). apply rstrip_no_space, Hn. }
  unfold snapshot_row. rewrite Hstrip.
  assert (Hne : Shell.nonempty n = true) by (destruct n; [discriminate|reflexivity]).
  rewrite Hne.
  change ("  " ++ n) with (String " " (String " " n)).
  rewrite !(ends_with_cons _ _ _) by (try apply ends_with_cons; exact Hsql).
  reflexivity.
Qed.

Lemma section_rows (names : list string) :
  Forall (fun n => ends_with ".sql" n = true /\ string_all no_space n = true) names ->
  flat_map snapshot_row (section names)
  = map (fun n => mk_snapshot n (timestamp_of n)) names.
Proof.
  intros H. destruct names as [|n0 rest]; [reflexivity|].
  unfold section. induction H as [|n ns [H1 H2] _ IH]; [reflexivity|].
  cbn [map flat_map]. rewrite (snapshot_row_indented _ H1 H2), IH. reflexivity.
Qed.

(** A section is never empty, its lines hold no line feed, and its last
    line does not end in whitespace. *)
Lemma section_shape (names : list string) :
  Forall (fun n => ends_with ".sql" n = true /\ string_all no_space n = true) names ->
  exists init final,
    section names = (init ++ [final])%list
    /\ Forall (fun l => string_all no_NL l = true) (init ++ [final])%list
    /\ rstrip final = final /\ Shell.nonempty final = true.
Proof.
  intros H. destruct names as [|n0 rest].
  - exists [], "  (none)". repeat split. repeat constructor.
  - assert (Hlines : Forall (fun l => string_all no_NL l = true
                                      /\ rstrip l = l /\ Shell.nonempty l = true)
                            (section (n0 :: rest))).
    { unfold section. apply Forall_map.
      eapply Forall_impl; [|exact H]. intros n [Hsql Hn]. cbv beta.
      repeat split.
      - change ("  " ++ n) with (String " " (String " " n)).
        cbn [string_all]. rewrite (no_space_no_NL _ Hn). reflexivity.
      - rewrite rstrip_app, (rstrip_no_space _ Hn).
        destruct n; [discriminate|reflexivity]. }
    assert (Hne : section (n0 :: rest) <> []) by (unfold section; discriminate).
    destruct (exists_last Hne) as (init & final & E).
    exists init, final. rewrite E in Hlines |- *.
    split; [reflexivity|].
    split.
    + eapply Forall_impl; [|exact Hlines]. intros l Hl. apply Hl.
    + apply Forall_app in Hlines as [_ Hlast].
      inversion Hlast as [|? ? Hf _]; subst. apply Hf.
Qed.

Lemma listed_names_end_in_sql (exec_ok : bool) (s : store) :
  Forall (fun n => ends_with ".sql" n = true)
         (list_named exec_ok s ++ list_auto exec_ok s).
Proof.
  apply Forall_app. split; apply Forall_forall; intros n Hn.
  - unfold list_named, grep_sql in Hn.
    apply grep_v_meta_spec in Hn as [Hn _]. apply filter_In in Hn. apply Hn.
  - unfold list_auto, grep_n8n_sql in Hn.
    apply grep_v_meta_spec in Hn as [Hn _]. apply filter_In in Hn.
    apply n8n_sql_ends_sql, Hn.
Qed.

End SnapshotRows.

(** X14.  The timestamp shown for a snapshot: a file name that starts with
    n8n-YYYYMMDD-HHMMSS, whatever follows, is shown with the timestamp
    "YYYY-MM-DD HH:MM:SS". *)
Theorem timestamp_of_stamped_name (Y M D h m s rest : string) :
  map String.length [Y; M; D; h; m; s] = [4; 2; 2; 2; 2; 2]%nat ->
  forallb (string_all is_digit) [Y; M; D; h; m; s] = true ->
  SnapshotsApi.timestamp_of
    ("n8n-" ++ (Y ++ M ++ D) ++ "-" ++ (h ++ m ++ s) ++ rest)
  = Y ++ "-" ++ M ++ "-" ++ D ++ " " ++ h ++ ":" ++ m ++ ":" ++ s.
Proof.
  intros Hlen Hdig.
  injection Hlen as HY HM HD Hh Hm Hs.
  cbn [forallb] in Hdig.
  repeat (apply andb_true_iff in Hdig as [? Hdig]).
  assert (Hdate : String.length (Y ++ M ++ D) = 8%nat)
    by (rewrite !length_app; lia).
  assert (Htime : String.length (h ++ m ++ s) = 6%nat)
    by (rewrite !length_app; lia).
  assert (Hd1 : string_all is_digit (Y ++ M ++ D) = true)
    by (rewrite !string_all_app; repeat (apply andb_true_iff; split); assumption).
  assert (Hd2 : string_all is_digit (h ++ m ++ s) = true)
    by (rewrite !string_all_app; repeat (apply andb_true_iff; split); assumption).
  unfold SnapshotsApi.timestamp_of.
  rewrite (stamp_match_here _ (Y ++ M ++ D, h ++ m ++ s)).
  - destruct (slices_of_fields Y M D 4 6 8) as (-> & -> & ->); try lia.
    destruct (slices_of_fields h m s 2 4 6) as (-> & -> & ->); try lia.
    reflexivity.
  - unfold SnapshotsApi.stamp_here.
    change (NamespaceInfo.strip_prefix "n8n-"
              ("n8n-" ++ (Y ++ M ++ D) ++ "-" ++ (h ++ m ++ s) ++ rest))
      with (Some ((Y ++ M ++ D) ++ "-" ++ (h ++ m ++ s) ++ rest)).
    cbv iota beta.
    pose proof (take_n_digits_app _ ("-" ++ (h ++ m ++ s) ++ rest) Hd1) as E1.
    rewrite Hdate in E1. rewrite E1.
    change (NamespaceInfo.expect "-" ("-" ++ (h ++ m ++ s) ++ rest))
      with (Some ((h ++ m ++ s) ++ rest)).
    cbv iota beta.
    pose proof (take_n_digits_app _ rest Hd2) as E2.
    rewrite Htime in E2. rewrite E2. reflexivity.
Qed.

(** The snapshot taken before the deployment of 2.1.0. *)
Lemma timestamp_of_pre_deploy_snapshot :
  SnapshotsApi.timestamp_of "n8n-20260119-181411-pre-v2.1.0.sql"
  = "2026-01-19 18:14:11".
Proof.
  apply (timestamp_of_stamped_name "2026" "01" "19" "18" "14" "11" "-pre-v2.1.0.sql");
    reflexivity.
Defined.

(** X15.  The API reads back what the listing script prints.  When no
    listed file name holds whitespace, the snapshots the API returns for the
    output of [list-snapshots.sh] are the named snapshots followed by the
    timestamped ones, each once per listed name and in the order of the
    script, with its timestamp; the headings, the empty line and the
    "(none)" lines give no entry. *)
Theorem api_reads_back_the_listing (exec_ok : bool) (s : Snapshots.store) :
  let names := (Snapshots.list_named exec_ok s ++ Snapshots.list_auto exec_ok s)%list in
  forallb (string_all PyText.no_space) names = true ->
  SnapshotsApi.parse_snapshots_output
    (SnapshotsApi.printed (Snapshots.list_snapshots exec_ok s "all"))
  = map (fun n => SnapshotsApi.mk_snapshot n (SnapshotsApi.timestamp_of n)) names.
Proof.
  intros names Hclean.
  assert (Hall : Forall (fun n => Snapshots.ends_with ".sql" n = true
                                  /\ string_all PyText.no_space n = true) names).
  { pose proof (listed_names_end_in_sql exec_ok s) as Hsql.
    apply Forall_forall. intros n Hn. split.
    - exact (proj1 (Forall_forall _ _) Hsql n Hn).
    - exact (proj1 (forallb_forall _ _) Hclean n Hn). }
  subst names. apply Forall_app in Hall as [Hnamed Hauto].
  destruct (section_shape _ Hauto) as (init & final & Esec & Hnl & Hfin & Hne).
  unfold SnapshotsApi.parse_snapshots_output.
  change (Snapshots.list_snapshots exec_ok s "all")
    with (["=== Named Snapshots ==="]
            ++ Snapshots.section (Snapshots.list_named exec_ok s)
            ++ [""; "=== Timestamped Snapshots ==="]
            ++ Snapshots.section (Snapshots.list_auto exec_ok s))%list.
  rewrite Esec.
  set (head := (["=== Named Snapshots ==="]
                  ++ Snapshots.section (Snapshots.list_named exec_ok s)
                  ++ [""; "=== Timestamped Snapshots ==="] ++ init)%list).
  assert (Elines :
            (["=== Named Snapshots ==="]
               ++ Snapshots.section (Snapshots.list_named exec_ok s)
               ++ [""; "=== Timestamped Snapshots ==="] ++ init ++ [final]
             = head ++ [final])%list).
  { subst head. rewrite <- !app_assoc. reflexivity. }
  rewrite Elines.
  assert (Hhead : Forall (fun l => string_all PyText.no_NL l = true) (head ++ [final])%list).
  { rewrite <- Elines. apply Forall_app. split; [repeat constructor|].
    apply Forall_app. split.
    - destruct (section_shape _ Hnamed) as (i & f & -> & H & _). exact H.
    - apply Forall_app. split; [repeat constructor|exact Hnl]. }
  destruct (split_printed head final Hhead Hfin Hne) as [_ Hsplit].
  assert (Hl : lstrip (SnapshotsApi.printed (head ++ [final])%list)
               = SnapshotsApi.printed (head ++ [final])%list) by reflexivity.
  unfold strip. rewrite Hl, Hsplit, <- Elines, <- Esec.
  rewrite !flat_map_app, !(section_rows _ Hnamed), !(section_rows _ Hauto).
  rewrite map_app. reflexivity.
Qed.

(** One named and two timestamped snapshots on the volume. *)
Lemma api_reads_back_three_snapshots :
  SnapshotsApi.parse_snapshots_output
    (SnapshotsApi.printed
       (Snapshots.list_snapshots true
          (Snapshots.mk_store
             [("n8n-20260119-120000-pre-v1.85.0.sql", "dump 1");
              ("n8n-20260119-130000-manual.sql", "dump 2")]
             (Some [("acme.sql", "dump 3"); ("acme.sql.meta", "{}")]))
          "all"))
  = [SnapshotsApi.mk_snapshot "acme.sql" "Unknown";
     SnapshotsApi.mk_snapshot "n8n-20260119-120000-pre-v1.85.0.sql" "2026-01-19 12:00:00";
     SnapshotsApi.mk_snapshot "n8n-20260119-130000-manual.sql" "2026-01-19 13:00:00"].
Proof.
  apply (api_reads_back_the_listing true
           (Snapshots.mk_store
              [("n8n-20260119-120000-pre-v1.85.0.sql", "dump 1");
               ("n8n-20260119-130000-manual.sql", "dump 2")]
              (Some [("acme.sql", "dump 3"); ("acme.sql.meta", "{}")]))).
  reflexivity.
Defined.

(** ** The release feed and its cache *)

Section Releases.
Import PyText ReleaseFeed.

(** Nothing is replaced in a string without the first character of [old]. *)
Lemma replace_absent (a : ascii) (old new s : string) :
  string_all (fun c => negb (Ascii.eqb a c)) s = true ->
  replace_all (String a old) new s = s.
Proof.
  unfold replace_all. induction s as [|c r IH]; [reflexivity|].
  cbn [string_all replace_from NamespaceInfo.strip_prefix].
  intros H. apply andb_true_iff in H as [Hc Hr].
  apply negb_true_iff in Hc. rewrite Hc, (IH Hr). reflexivity.
Qed.

Lemma version_string_without (a : ascii) (major minor patch : N) :
  is_digit a = false -> Ascii.eqb a "." = false ->
  string_all (fun c => negb (Ascii.eqb a c))
             (Versions.version_string major minor patch) = true.
Proof.
  intros Hd Hdot.
  assert (Hn : forall n, string_all (fun c => negb (Ascii.eqb a c)) (str_of_N n) = true).
  { intros n. pose proof (str_of_N_digits n) as H.
    induction (str_of_N n) as [|c r IH]; [reflexivity|].
    cbn [string_all] in *. apply andb_true_iff in H as [Hc Hr].
    rewrite (IH Hr), andb_true_r. apply negb_true_iff.
    rewrite Ascii.eqb_sym. apply digit_not; assumption. }
  unfold Versions.version_string. rewrite !string_all_app, !Hn.
  cbn [string_all]. rewrite Hdot. reflexivity.
Qed.

Lemma replace_v_drops_every_v (s : string) :
  string_all (fun c => negb (Ascii.eqb c "v")) (replace_all "v" "" s) = true.
Proof.
  unfold replace_all. induction s as [|c r IH]; [reflexivity|].
  cbn [replace_from NamespaceInfo.strip_prefix String.length Nat.sub].
  rewrite Ascii.eqb_sym.
  destruct (Ascii.eqb c "v") eqn:E.
  - exact IH.
  - cbn [string_all]. rewrite E, IH. reflexivity.
Qed.

Lemma versions_of_spec (releases : list release) :
  forall vs, versions_of releases = Some vs ->
    (List.length vs <= List.length releases)%nat
    /\ forall v, In v vs ->
         exists r tag, In r releases /\ draft r = false /\ prerelease r = false
                       /\ tag_name r = Some tag /\ v = version_of_tag tag.
Proof.
  induction releases as [|r rest IH]; intros vs H; cbn [versions_of] in H.
  - injection H as <-. split; [apply Nat.le_refl|]. intros v [].
  - destruct (negb (draft r) && negb (prerelease r)) eqn:Ekeep.
    + destruct (tag_name r) as [tag|] eqn:Etag; [|discriminate].
      destruct (versions_of rest) as [vs'|]; [|discriminate].
      injection H as <-. destruct (IH vs' eq_refl) as [Hlen Hin].
      split; [cbn [List.length]; lia|].
      intros v [<-|Hv].
      * exists r, tag. apply andb_true_iff in Ekeep as [Hd Hp].
        apply negb_true_iff in Hd, Hp.
        repeat split; auto. left. reflexivity.
      * destruct (Hin v Hv) as (r' & tag' & Hr' & Hrest).
        exists r', tag'. split; [right; exact Hr'|exact Hrest].
    + destruct (IH vs H) as [Hlen Hin].
      split; [cbn [List.length]; lia|].
      intros v Hv. destruct (Hin v Hv) as (r' & tag' & Hr' & Hrest).
      exists r', tag'. split; [right; exact Hr'|exact Hrest].
Qed.

End Releases.

(** X16.  After a refresh the cache is used for five minutes.  When the
    cache is not fresh and GitHub answers 200 with a list whose first twenty
    records give the versions [vs], the call answers [vs] and stores them;
    every call before five minutes have passed then answers [vs] again
    without calling GitHub, whatever GitHub would have answered, and a call
    at five minutes or later calls GitHub again. *)
Theorem refreshed_cache_is_reused
        (fetch : unit -> option ReleaseFeed.response) (now : Z) (c : ReleaseFeed.cache)
        (resp : ReleaseFeed.response) (releases : list ReleaseFeed.release)
        (vs : list string) :
  (forall e, ReleaseFeed.expires c = Some e -> e <= now) ->
  fetch tt = Some resp ->
  ReleaseFeed.status_code resp = 200 ->
  ReleaseFeed.json resp = Some releases ->
  ReleaseFeed.versions_of (firstn 20 releases) = Some vs ->
  let c1 := ReleaseFeed.mk_cache vs (Some (now + ReleaseFeed.five_minutes)) in
  ReleaseFeed.get_available_versions fetch now c = (true, vs, c1)
  /\ forall fetch' now',
       (now' < now + ReleaseFeed.five_minutes ->
        ReleaseFeed.get_available_versions fetch' now' c1 = (false, vs, c1))
       /\ (now + ReleaseFeed.five_minutes <= now' ->
           fst (fst (ReleaseFeed.get_available_versions fetch' now' c1)) = true).
Proof.
  intros Hstale Hfetch Hstatus Hjson Hvs c1. split.
  - unfold ReleaseFeed.get_available_versions.
    assert (Hfresh : match ReleaseFeed.expires c with
                     | Some e => now <? e
                     | None => false
                     end = false).
    { destruct (ReleaseFeed.expires c) as [e|] eqn:E; [|reflexivity].
      apply Z.ltb_ge, Hstale. reflexivity. }
    rewrite Hfresh, Hfetch, Hstatus, Hjson, Hvs. reflexivity.
  - intros fetch' now'. split; intros Hnow.
    + unfold ReleaseFeed.get_available_versions. subst c1.
      cbn [ReleaseFeed.expires ReleaseFeed.versions].
      apply Z.ltb_lt in Hnow. rewrite Hnow. reflexivity.
    + unfold ReleaseFeed.get_available_versions. subst c1.
      cbn [ReleaseFeed.expires ReleaseFeed.versions].
      apply Z.ltb_ge in Hnow. rewrite Hnow.
      destruct (fetch' tt) as [r|]; [|reflexivity].
      destruct (ReleaseFeed.status_code r =? 200); [|reflexivity].
      destruct (ReleaseFeed.json r) as [rs|]; [|reflexivity].
      destruct (ReleaseFeed.versions_of (firstn 20 rs)); reflexivity.
Qed.

(** An empty cache, refreshed at time 0 with one release; GitHub is down
    four minutes later. *)
Lemma refreshed_cache_example :
  let feed := fun _ : unit =>
                Some (ReleaseFeed.mk_response 200
                        (Some [ReleaseFeed.mk_release (Some "n8n@1.85.0") false false])) in
  let c1 := ReleaseFeed.mk_cache ["1.85.0"] (Some 300000000) in
  ReleaseFeed.get_available_versions feed 0 (ReleaseFeed.mk_cache [] None)
  = (true, ["1.85.0"], c1)
  /\ ReleaseFeed.get_available_versions (fun _ => None) 240000000 c1
     = (false, ["1.85.0"], c1).
Proof.
  intros feed c1.
  destruct (refreshed_cache_is_reused feed 0 (ReleaseFeed.mk_cache [] None)
              (ReleaseFeed.mk_response 200
                 (Some [ReleaseFeed.mk_release (Some "n8n@1.85.0") false false]))
              [ReleaseFeed.mk_release (Some "n8n@1.85.0") false false]
              ["1.85.0"]) as [H1 H2].
  - intros e H. discriminate H.
  - reflexivity.
  - reflexivity.
  - reflexivity.
  - reflexivity.
  - split; [exact H1|].
    apply (proj1 (H2 (fun _ => None) 240000000)). reflexivity.
Defined.

(** X17.  A failed refresh is never an error and never touches the cache.
    When GitHub cannot be reached, answers another status than 200, answers
    a body that is not JSON, or lists among its first twenty records a
    published release without a tag name, the call answers the versions of
    the cache, expired or not, and leaves the cache as it is. *)
Theorem failed_fetch_answers_from_the_cache
        (fetch : unit -> option ReleaseFeed.response) (now : Z) (c : ReleaseFeed.cache) :
  (fetch tt = None
   \/ exists resp,
       fetch tt = Some resp
       /\ (ReleaseFeed.status_code resp <> 200
           \/ ReleaseFeed.json resp = None
           \/ exists releases,
               ReleaseFeed.json resp = Some releases
               /\ ReleaseFeed.versions_of (firstn 20 releases) = None)) ->
  snd (fst (ReleaseFeed.get_available_versions fetch now c)) = ReleaseFeed.versions c
  /\ snd (ReleaseFeed.get_available_versions fetch now c) = c.
Proof.
  intros H. unfold ReleaseFeed.get_available_versions.
  destruct (match ReleaseFeed.expires c with
            | Some e => now <? e
            | None => false
            end); [split; reflexivity|].
  destruct H as [->|(resp & -> & H)]; [split; reflexivity|].
  destruct (ReleaseFeed.status_code resp =? 200) eqn:Es; [|split; reflexivity].
  destruct H as [H|[->|(releases & -> & ->)]]; try (split; reflexivity).
  apply Z.eqb_eq in Es. contradiction.
Qed.

(** An expired cache; GitHub answers 403, then a published release without
    a tag name. *)
Lemma failed_fetch_examples :
  let c := ReleaseFeed.mk_cache ["1.85.0"] (Some 10) in
  let untagged := ReleaseFeed.mk_response 200
                    (Some [ReleaseFeed.mk_release (Some "n8n@2.0.0") false false;
                           ReleaseFeed.mk_release None false false]) in
  (snd (fst (ReleaseFeed.get_available_versions
               (fun _ => Some (ReleaseFeed.mk_response 403 None)) 20 c)) = ["1.85.0"]
   /\ snd (ReleaseFeed.get_available_versions
             (fun _ => Some (ReleaseFeed.mk_response 403 None)) 20 c) = c)
  /\ (snd (fst (ReleaseFeed.get_available_versions (fun _ => Some untagged) 20 c))
      = ["1.85.0"]
      /\ snd (ReleaseFeed.get_available_versions (fun _ => Some untagged) 20 c) = c).
Proof.
  intros c untagged. split.
  - apply (failed_fetch_answers_from_the_cache
             (fun _ => Some (ReleaseFeed.mk_response 403 None)) 20 c).
    right. exists (ReleaseFeed.mk_response 403 None).
    split; [reflexivity|]. left. discriminate.
  - apply (failed_fetch_answers_from_the_cache (fun _ => Some untagged) 20 c).
    right. exists untagged. split; [reflexivity|]. right. right.
    exists [ReleaseFeed.mk_release (Some "n8n@2.0.0") false false;
            ReleaseFeed.mk_release None false false].
    split; reflexivity.
Defined.

(** X18.  The three ways a release of version major.minor.patch is tagged,
    n8n@major.minor.patch, vmajor.minor.patch and major.minor.patch, all
    give the version string major.minor.patch, the one
    [Versions.namespace_of] and [Versions.port_of] take apart. *)
Theorem version_of_release_tag (major minor patch : N) :
  let v := Versions.version_string major minor patch in
  ReleaseFeed.version_of_tag ("n8n@" ++ v) = v
  /\ ReleaseFeed.version_of_tag ("v" ++ v) = v
  /\ ReleaseFeed.version_of_tag v = v.
Proof.
  intros v.
  assert (Hn : PyText.replace_all "n8n@" "" v = v)
    by (apply replace_absent, version_string_without; reflexivity).
  assert (Hv : PyText.replace_all "v" "" v = v)
    by (apply replace_absent, version_string_without; reflexivity).
  unfold ReleaseFeed.version_of_tag. repeat split.
  - assert (E : PyText.replace_all "n8n@" "" ("n8n@" ++ v) = v).
    { unfold PyText.replace_all in *.
      change ("n8n@" ++ v) with (String "n" (String "8" (String "n" (String "@" v)))).
      cbn [PyText.replace_from NamespaceInfo.strip_prefix Ascii.eqb Bool.eqb
           String.length Nat.sub append].
      destruct v; [reflexivity|]. exact Hn. }
    rewrite E. exact Hv.
  - assert (E : PyText.replace_all "n8n@" "" ("v" ++ v) = "v" ++ v).
    { unfold PyText.replace_all in *.
      change ("v" ++ v) with (String "v" v).
      cbn [PyText.replace_from NamespaceInfo.strip_prefix Ascii.eqb Bool.eqb].
      rewrite Hn. reflexivity. }
    rewrite E. unfold PyText.replace_all in *.
    change ("v" ++ v) with (String "v" v).
    cbn [PyText.replace_from NamespaceInfo.strip_prefix Ascii.eqb Bool.eqb
         String.length Nat.sub append].
    exact Hv.
  - rewrite Hn. exact Hv.
Qed.

(** X19.  The versions of a refresh come from the first twenty records of
    the feed only: there are at most twenty of them, each is made from the
    tag of a record among the first twenty that is neither a draft nor a
    prerelease, and none holds the letter v, wherever the tag had one. *)
Theorem versions_come_from_the_first_twenty
        (releases : list ReleaseFeed.release) (vs : list string) :
  ReleaseFeed.versions_of (firstn 20 releases) = Some vs ->
  (List.length vs <= 20)%nat
  /\ forall v, In v vs ->
       string_all (fun c => negb (Ascii.eqb c "v")) v = true
       /\ exists r tag,
           In r (firstn 20 releases)
           /\ ReleaseFeed.draft r = false /\ ReleaseFeed.prerelease r = false
           /\ ReleaseFeed.tag_name r = Some tag
           /\ v = ReleaseFeed.version_of_tag tag.
Proof.
  intros H. destruct (versions_of_spec _ _ H) as [Hlen Hin]. split.
  - assert (List.length (firstn 20 releases) <= 20)%nat
      by (rewrite length_firstn; apply Nat.le_min_l).
    lia.
  - intros v Hv. destruct (Hin v Hv) as (r & tag & Hr & Hd & Hp & Ht & ->).
    split; [apply replace_v_drops_every_v|].
    exists r, tag. repeat split; assumption.
Qed.

(** A feed of a prerelease and a release. *)
Lemma versions_of_two_records :
  (List.length ["1.0.0-preiew"] <= 20)%nat
  /\ forall v, In v ["1.0.0-preiew"] ->
       string_all (fun c => negb (Ascii.eqb c "v")) v = true
       /\ exists r tag,
           In r (firstn 20 [ReleaseFeed.mk_release (Some "n8n@2.0.0-rc.1") false true;
                            ReleaseFeed.mk_release (Some "n8n@1.0.0-preview") false false])
           /\ ReleaseFeed.draft r = false /\ ReleaseFeed.prerelease r = false
           /\ ReleaseFeed.tag_name r = Some tag
           /\ v = ReleaseFeed.version_of_tag tag.
Proof.
  apply (versions_come_from_the_first_twenty
           [ReleaseFeed.mk_release (Some "n8n@2.0.0-rc.1") false true;
            ReleaseFeed.mk_release (Some "n8n@1.0.0-preview") false false]
           ["1.0.0-preiew"]).
  reflexivity.
Defined.

(** ** Snapshots from their creation to the listing *)

Section SnapshotLifecycle.
Import Snapshots.

Lemma write_file_names (name content : string) (d : files) (n : string) :
  In n (map fst (write_file name content d)) <-> n = name \/ In n (map fst d).
Proof.
  induction d as [|[k c] rest IH]; cbn [write_file map fst In].
  - split; [intros [H|[]]; left; auto|intros [H|[]]; left; auto].
  - destruct (String.eqb k name) eqn:E; cbn [map fst In].
    + apply String.eqb_eq in E. subst k.
      split; [intros [H|H]; [left; auto|right; right; exact H]|].
      intros [H|[H|H]]; [left; auto|left; auto|right; exact H].
    + rewrite IH. split.
      * intros [H|[H|H]]; [right; left; exact H|left; exact H|right; right; exact H].
      * intros [H|[H|H]]; [right; left; exact H|left; exact H|right; right; exact H].
Qed.

Lemma append_assoc (a b c : string) : (a ++ b) ++ c = a ++ b ++ c.
Proof. induction a as [|x a IH]; simpl; [reflexivity|]. rewrite IH. reflexivity. Qed.

Lemma ends_with_app (suffix s : string) : ends_with suffix (s ++ suffix) = true.
Proof.
  induction s as [|c r IH].
  - cbn [append]. destruct suffix; cbn [ends_with]; rewrite String.eqb_refl; reflexivity.
  - cbn [append ends_with]. rewrite IH. apply orb_true_r.
Qed.

Lemma meta_is_not_sql (n : string) : ends_with ".sql" (n ++ ".meta") = false.
Proof.
  destruct (ends_with ".sql" (n ++ ".meta")) eqn:E; [|reflexivity].
  apply sql_is_not_meta in E. rewrite ends_with_app in E. discriminate.
Qed.

(** The Job that [create-named-snapshot.sh] applies writes [NAME.sql]. *)
Lemma applied_job_file (e : env) (NAME : string) (arg2 : option string) (j : job) :
  applied_job (create_named_snapshot e NAME arg2) = Some j ->
  BACKUP_FILE j = NAME ++ ".sql" /\ label_ok NAME = true.
Proof.
  unfold create_named_snapshot.
  destruct (negb (Shell.nonempty NAME)); [discriminate|].
  destruct (label_ok NAME); cbn [negb]; [|discriminate].
  destruct (String.eqb (source_of arg2) "shared"); cbn [negb andb app].
  - destruct (apply_ok e); cbn [applied_job]; intros H; injection H as <-;
      split; reflexivity.
  - destruct (namespace_exists e (source_of arg2)); cbn [negb applied_job app];
      [|discriminate].
    destruct (apply_ok e); cbn [applied_job app]; intros H; injection H as <-;
      split; reflexivity.
Qed.

Lemma list_auto_ignores_snapshots_dir (b : files) (d d' : option files) :
  list_auto true (mk_store b d) = list_auto true (mk_store b d').
Proof.
  unfold list_auto, grep_n8n_sql, grep_v_meta, list_files.
  cbn [backups_files snapshots_dir]. rewrite !filter_app.
  destruct d, d'; reflexivity.
Qed.

Lemma n8n_sql_manual (TIMESTAMP : string) :
  n8n_sql ("n8n-" ++ TIMESTAMP ++ "-manual.sql") = true.
Proof.
  unfold n8n_sql.
  change (NamespaceInfo.strip_prefix "n8n-" ("n8n-" ++ TIMESTAMP ++ "-manual.sql"))
    with (Some (TIMESTAMP ++ "-manual.sql")).
  cbv iota beta.
  change "-manual.sql" with ("-manual" ++ ".sql").
  rewrite <- append_assoc. apply ends_with_app.
Qed.

Lemma no_digit_no_match (s : string) :
  string_all (fun c => negb (is_digit c)) s = true ->
  NamespaceInfo.version_match s = None.
Proof.
  intros H.
  assert (Hdig : forall t, string_all (fun c => negb (is_digit c)) t = true ->
                           NamespaceInfo.digits1 t = None).
  { intros [|c r] Ht; [reflexivity|].
    cbn [string_all] in Ht. apply andb_true_iff in Ht as [Hc _].
    apply negb_true_iff in Hc.
    unfold NamespaceInfo.digits1. cbn [NamespaceInfo.take_digits]. rewrite Hc.
    reflexivity. }
  assert (Hpre : forall p t rest,
             string_all (fun c => negb (is_digit c)) t = true ->
             NamespaceInfo.strip_prefix p t = Some rest ->
             string_all (fun c => negb (is_digit c)) rest = true).
  { induction p as [|a p IH]; intros t rest Ht E; cbn [NamespaceInfo.strip_prefix] in E.
    - injection E as <-. exact Ht.
    - destruct t as [|b t]; [discriminate|].
      destruct (Ascii.eqb a b); [|discriminate].
      cbn [string_all] in Ht. apply andb_true_iff in Ht as [_ Ht].
      exact (IH _ _ Ht E). }
  assert (Hhere : forall t, string_all (fun c => negb (is_digit c)) t = true ->
                            NamespaceInfo.match_here t = None).
  { intros t Ht. unfold NamespaceInfo.match_here.
    destruct (NamespaceInfo.strip_prefix "n8n-v" t) as [s1|] eqn:E; [|reflexivity].
    rewrite (Hdig _ (Hpre _ _ _ Ht E)). reflexivity. }
  induction s as [|c r IH].
  - reflexivity.
  - cbn [NamespaceInfo.version_match]. rewrite (Hhere _ H).
    cbn [string_all] in H. apply andb_true_iff in H as [_ Hr]. exact (IH Hr).
Qed.

End SnapshotLifecycle.

(** X20.  A named snapshot shows in the listing as soon as its Job has
    written the dump, whether or not [pg_dump] succeeded: after the Job that
    [create-named-snapshot.sh] applied for the label NAME has run, the named
    section lists NAME.sql and what it listed before, the [.meta] file is
    not listed, and the timestamped section is as it was. *)
Theorem named_snapshot_is_listed
        (e : Snapshots.env) (NAME : string) (arg2 : option string) (j : Snapshots.job)
        (dump created : string) (dump_ok : bool) (s : Snapshots.store) :
  Snapshots.applied_job (Snapshots.create_named_snapshot e NAME arg2) = Some j ->
  let s' := fst (Snapshots.run_job j dump dump_ok created s) in
  (forall n, In n (Snapshots.list_named true s')
             <-> n = NAME ++ ".sql" \/ In n (Snapshots.list_named true s))
  /\ Snapshots.list_auto true s' = Snapshots.list_auto true s.
Proof.
  intros Hjob s'. destruct (applied_job_file _ _ _ _ Hjob) as [Hfile _].
  assert (Hdir : Snapshots.list_files true s Snapshots.NamedDir
                 = map fst match Snapshots.snapshots_dir s with
                           | Some d => d
                           | None => []
                           end).
  { unfold Snapshots.list_files. destruct (Snapshots.snapshots_dir s); reflexivity. }
  split.
  - intros n. rewrite !list_named_spec, Hdir.
    subst s'. unfold Snapshots.run_job, Snapshots.list_files. rewrite Hfile.
    destruct dump_ok; cbn [fst Snapshots.snapshots_dir].
    + rewrite !write_file_names. split.
      * intros [[H|[H|H]] Hsql].
        -- subst n. rewrite meta_is_not_sql in Hsql. discriminate.
        -- left. exact H.
        -- right. split; assumption.
      * intros [H|[H Hsql]].
        -- subst n. split; [right; left; reflexivity|apply ends_with_app].
        -- split; [right; right; exact H|exact Hsql].
    + rewrite !write_file_names. split.
      * intros [[H|H] Hsql]; [left; exact H|right; split; assumption].
      * intros [H|[H Hsql]].
        -- subst n. split; [left; reflexivity|apply ends_with_app].
        -- split; [right; exact H|exact Hsql].
  - subst s'. unfold Snapshots.run_job.
    destruct s as [b d]. destruct dump_ok; cbn [fst Snapshots.backups_files];
      apply list_auto_ignores_snapshots_dir.
Qed.

(** The label acme on a volume without a snapshots directory, the dump
    failing. *)
Lemma named_snapshot_acme_is_listed :
  let e := Snapshots.mk_env (fun _ => false) "20260120-101500" true in
  let j := Snapshots.mk_job "snapshot-acme-20260120-101500"
             "postgres.n8n-system.svc.cluster.local" "n8n" "acme.sql" "acme" "shared" in
  let s := Snapshots.mk_store [("n8n-20260119-120000-manual.sql", "dump")] None in
  let s' := fst (Snapshots.run_job j "" false "now" s) in
  (forall n, In n (Snapshots.list_named true s')
             <-> n = "acme.sql" \/ In n (Snapshots.list_named true s))
  /\ Snapshots.list_auto true s' = Snapshots.list_auto true s.
Proof.
  intros e j s s'.
  apply (named_snapshot_is_listed e "acme" None j "" "now" false s).
  reflexivity.
Defined.

(** X21.  A manual snapshot is listed with the timestamped ones.  Whatever
    the clock printed, the file that the Job of [create-snapshot.sh] writes,
    n8n-TIMESTAMP-manual.sql, is in the timestamped section once the Job has
    run, beside what was listed before, and the named section is as it
    was. *)
Theorem manual_snapshot_is_listed
        (TIMESTAMP : string) (apply_ok : bool) (j : ManualSnapshot.job)
        (dump : string) (dump_ok : bool) (s : Snapshots.store) :
  ManualSnapshot.applied_job (ManualSnapshot.create_snapshot TIMESTAMP apply_ok)
  = Some j ->
  let s' := fst (ManualSnapshot.run_job j dump dump_ok s) in
  ManualSnapshot.BACKUP_FILE j = "n8n-" ++ TIMESTAMP ++ "-manual.sql"
  /\ (forall n, In n (Snapshots.list_auto true s')
                <-> n = "n8n-" ++ TIMESTAMP ++ "-manual.sql"
                    \/ In n (Snapshots.list_auto true s))
  /\ Snapshots.list_named true s' = Snapshots.list_named true s.
Proof.
  intros Hjob s'.
  assert (Hj : j = ManualSnapshot.mk_job ("manual-snapshot-" ++ TIMESTAMP)
                                         ("n8n-" ++ TIMESTAMP ++ "-manual.sql")).
  { unfold ManualSnapshot.create_snapshot in Hjob.
    destruct apply_ok; cbn [ManualSnapshot.applied_job] in Hjob;
      injection Hjob as <-; reflexivity. }
  subst j. split; [reflexivity|]. split; [|reflexivity].
  intros n. rewrite !list_auto_spec.
  subst s'. unfold ManualSnapshot.run_job, Snapshots.list_files.
  cbn [fst Snapshots.backups_files Snapshots.snapshots_dir ManualSnapshot.BACKUP_FILE].
  rewrite !in_app_iff, write_file_names. split.
  - intros [[[H|H]|H] Hsql].
    + left. exact H.
    + right. split; [left; exact H|exact Hsql].
    + right. split; [right; exact H|exact Hsql].
  - intros [H|[[H|H] Hsql]].
    + subst n. split; [left; left; reflexivity|apply n8n_sql_manual].
    + split; [left; right; exact H|exact Hsql].
    + split; [right; exact H|exact Hsql].
Qed.

(** A manual snapshot on an empty volume. *)
Lemma manual_snapshot_on_empty_volume :
  let j := ManualSnapshot.mk_job "manual-snapshot-20260120-101500"
                                 "n8n-20260120-101500-manual.sql" in
  let s := Snapshots.mk_store [] None in
  let s' := fst (ManualSnapshot.run_job j "dump" true s) in
  ManualSnapshot.BACKUP_FILE j = "n8n-20260120-101500-manual.sql"
  /\ (forall n, In n (Snapshots.list_auto true s')
                <-> n = "n8n-20260120-101500-manual.sql"
                    \/ In n (Snapshots.list_auto true s))
  /\ Snapshots.list_named true s' = Snapshots.list_named true s.
Proof.
  intros j s s'.
  apply (manual_snapshot_is_listed "20260120-101500" true j "dump" true s).
  reflexivity.
Defined.

(** ** The upload dialog *)

Section Upload.
Import UploadDialog.


End Upload.

(** X22.  The Upload button never sends a name that the snapshot scripts
    would refuse: when a click uploads a file under a name, no upload was
    running, the file is the selected one, and the name is the one in the
    name field and is made of letters, digits, underscores and dashes. *)
Theorem upload_sends_a_valid_name
        (pending : bool) (st : UploadDialog.state) (f n : string) :
  UploadDialog.click_upload pending st = Some (f, n) ->
  pending = false /\ UploadDialog.file st = Some f /\ UploadDialog.name st = n
  /\ Snapshots.label_ok n = true.
Proof.
  unfold UploadDialog.click_upload, UploadDialog.upload_disabled.
  destruct (UploadDialog.file st) as [f'|]; [|discriminate].
  destruct (Shell.nonempty (UploadDialog.name st)) eqn:Hne; cbn [negb orb];
    [|discriminate].
  destruct (UploadDialog.isValidName (UploadDialog.name st)) eqn:Hv; cbn [negb orb];
    [|discriminate].
  destruct pending; [discriminate|].
  intros H. injection H as <- <-. repeat split. exact Hv.
Qed.

(** The file backup.sql under the name my_backup. *)
Lemma upload_my_backup :
  false = false
  /\ UploadDialog.file (UploadDialog.mk_state (Some "backup.sql") "my_backup")
     = Some "backup.sql"
  /\ UploadDialog.name (UploadDialog.mk_state (Some "backup.sql") "my_backup")
     = "my_backup"
  /\ Snapshots.label_ok "my_backup" = true.
Proof.
  apply (upload_sends_a_valid_name false
           (UploadDialog.mk_state (Some "backup.sql") "my_backup")
           "backup.sql" "my_backup").
  reflexivity.
Defined.



(** X24.  The name the client makes up for a snapshot of a deployment is
    one the snapshot script accepts.  With no name given, or an empty one,
    the name is the date of the ISO timestamp followed by -from- and the
    namespace; when the first ten characters of the timestamp and the
    namespace are made of the characters of names, the name passes the
    script's check, and the source is the namespace. *)
Theorem default_snapshot_name_is_valid (iso namespace : string) (given : option string) :
  (given = None \/ given = Some EmptyString) ->
  string_all Snapshots.is_label_char (PyText.slice 0 10 iso) = true ->
  DeployForm.test_all_name_chars namespace = true ->
  let request := ApiClient.createSnapshotFromDeployment iso namespace given in
  ApiClient.name request = PyText.slice 0 10 iso ++ "-from-" ++ namespace
  /\ ApiClient.source request = namespace
  /\ Snapshots.label_ok (ApiClient.name request) = true.
Proof.
  intros Hgiven Hiso Hns request.
  assert (Hname : ApiClient.name request
                  = PyText.slice 0 10 iso ++ "-from-" ++ namespace)
    by (subst request; destruct Hgiven as [->| ->]; reflexivity).
  split; [exact Hname|]. split; [reflexivity|].
  rewrite Hname. unfold Snapshots.label_ok.
  unfold DeployForm.test_all_name_chars in Hns.
  apply andb_true_iff in Hns as [Hne Hchars].
  assert (Hlabel : string_all Snapshots.is_label_char namespace = true).
  { clear Hne Hname request. induction namespace as [|c r IH]; [reflexivity|].
    cbn [string_all] in *. apply andb_true_iff in Hchars as [Hc Hr].
    rewrite (IH Hr), andb_true_r.
    unfold DeployForm.is_name_char, DeployForm.is_lower_alnum in Hc.
    unfold Snapshots.is_label_char.
    destruct (DeployForm.is_lower c); [reflexivity|].
    destruct (is_digit c); [rewrite !orb_true_r; reflexivity|].
    cbn [orb] in Hc. rewrite Hc. rewrite !orb_true_r. reflexivity. }
  rewrite !string_all_app, Hiso, Hlabel.
  apply andb_true_iff. split; [|reflexivity].
  destruct (PyText.slice 0 10 iso); reflexivity.
Qed.

(** A snapshot of n8n-v1-85-0, asked for on 20 January 2026. *)
Lemma default_snapshot_name_example :
  let request := ApiClient.createSnapshotFromDeployment
                   "2026-01-20T10:15:02.123Z" "n8n-v1-85-0" None in
  ApiClient.name request = "2026-01-20-from-n8n-v1-85-0"
  /\ ApiClient.source request = "n8n-v1-85-0"
  /\ Snapshots.label_ok (ApiClient.name request) = true.
Proof.
  apply (default_snapshot_name_is_valid "2026-01-20T10:15:02.123Z" "n8n-v1-85-0" None).
  - left. reflexivity.
  - reflexivity.
  - reflexivity.
Defined.

(** ** Deployments that the list of versions leaves out *)

Section DroppedRows.
Import PyText VersionsList.

Lemma versions_rows_nothing (lines : list string) :
  Forall (fun l => versions_row l = Returns None) lines ->
  forall acc, versions_rows lines acc = Returns acc.
Proof.
  induction 1 as [|l rest Hl _ IH]; intros acc; cbn [versions_rows]; [reflexivity|].
  rewrite Hl. apply IH.
Qed.

Lemma versions_row_no_digit (line : string) :
  string_all (fun c => negb (is_digit c)) (hd EmptyString (split_ws line)) = true ->
  versions_row line = Returns None.
Proof.
  intros H. unfold versions_row.
  destruct (skipped line); [reflexivity|].
  destruct (split_ws line) as [|ns [|md [|st [|pods more]]]]; try reflexivity.
  cbn [hd] in H. rewrite (no_digit_no_match _ H). reflexivity.
Qed.

End DroppedRows.

(** X25.  Deployments under custom names are left out of the list of
    versions: a row whose namespace holds no digit gives no entry, since
    the version is read from the namespace alone, and an output in which
    every row is such a row gives the empty list. *)
Theorem names_without_digits_are_not_listed (output : string) :
  forallb (fun line =>
             string_all (fun c => negb (is_digit c))
                        (hd EmptyString (PyText.split_ws line)))
          (str_split PyText.NL (strip output)) = true ->
  VersionsList.parse_versions_output output = Returns [].
Proof.
  intros H. unfold VersionsList.parse_versions_output.
  apply versions_rows_nothing. apply Forall_forall. intros line Hin.
  apply versions_row_no_digit.
  exact (proj1 (forallb_forall _ _) H line Hin).
Qed.

(** Two deployments, acme-prod and beta-customer, running. *)
Lemma custom_names_are_not_listed :
  let nl := String PyText.NL EmptyString in
  VersionsList.parse_versions_output
    ("NAMESPACE MODE STATUS PODS URL" ++ nl
       ++ "acme-prod queue Running 4/4 http://localhost:30673" ++ nl
       ++ "beta-customer regular Running 1/1 http://localhost:30412" ++ nl)
  = Returns [].
Proof.
  intros nl.
  apply (names_without_digits_are_not_listed
           ("NAMESPACE MODE STATUS PODS URL" ++ nl
              ++ "acme-prod queue Running 4/4 http://localhost:30673" ++ nl
              ++ "beta-customer regular Running 1/1 http://localhost:30412" ++ nl)).
  reflexivity.
Defined.

(** X26.  A resource field that is filled in and cleared again leaves
    nothing behind.  Starting from a form whose field shows nothing, the
    field shows what was typed, and after it is cleared it shows nothing,
    the Helm values built from the form and the decision to send custom
    values are what they were before; clearing the raw YAML leaves the
    structured values alone. *)
Theorem cleared_fields_send_nothing
        (f : CustomValuesForm.field) (typed : string)
        (value : HelmValues.CustomValues) (safe_load : string -> outcome HelmValues.value) :
  CustomValuesForm.shown f value = EmptyString ->
  let edited := CustomValuesForm.updateResources f typed value in
  let cleared := CustomValuesForm.updateResources f EmptyString edited in
  CustomValuesForm.shown f edited = typed
  /\ CustomValuesForm.shown f cleared = EmptyString
  /\ HelmValues.structured_values cleared = HelmValues.structured_values value
  /\ DeployForm.hasCustomValues (DeployForm.filtered cleared)
     = DeployForm.hasCustomValues (DeployForm.filtered value)
  /\ HelmValues.build_helm_values safe_load (CustomValuesForm.updateRawYaml EmptyString value)
     = Returns (HelmValues.structured_values value).
Proof.
  intros Hshown edited cleared.
  destruct value as [evs res wr raw].
  unfold CustomValuesForm.shown in Hshown. cbn [HelmValues.resources] in Hshown.
  split; [|split; [|split; [|split]]].
  - subst edited. unfold CustomValuesForm.shown, CustomValuesForm.updateResources,
      CustomValuesForm.or_undefined.
    cbn [HelmValues.resources].
    destruct f; cbn [HelmValues.cpu HelmValues.memory];
      destruct typed; reflexivity.
  - subst cleared edited.
    unfold CustomValuesForm.shown, CustomValuesForm.updateResources.
    cbn [HelmValues.resources]. destruct f; reflexivity.
  - subst cleared edited.
    unfold HelmValues.structured_values, HelmValues.with_env, HelmValues.with_replicas,
      HelmValues.with_resources, CustomValuesForm.updateResources,
      CustomValuesForm.or_undefined.
    cbn [HelmValues.resources HelmValues.envVars HelmValues.workerReplicas
         HelmValues.cpu HelmValues.memory Shell.nonempty HelmValues.truthy orb].
    destruct res as [[[[|a1 s1]|] [[|a2 s2]|]]|]; destruct f;
      cbn [HelmValues.cpu HelmValues.memory] in Hshown;
      try discriminate Hshown; reflexivity.
  - subst cleared edited.
    unfold DeployForm.hasCustomValues, DeployForm.filtered,
      CustomValuesForm.updateResources, CustomValuesForm.or_undefined.
    cbn [HelmValues.resources HelmValues.envVars HelmValues.workerReplicas
         HelmValues.rawYaml HelmValues.cpu HelmValues.memory Shell.nonempty
         HelmValues.truthy orb].
    destruct res as [[[[|a1 s1]|] [[|a2 s2]|]]|]; destruct f;
      cbn [HelmValues.cpu HelmValues.memory] in Hshown;
      try discriminate Hshown; reflexivity.
  - reflexivity.
Qed.

(** A CPU limit typed into an empty form with a memory limit, then
    cleared. *)
Lemma cleared_cpu_limit_example :
  let value := HelmValues.mk_custom None (Some (HelmValues.mk_resources None (Some "2Gi")))
                                    None None in
  let edited := CustomValuesForm.updateResources CustomValuesForm.Cpu "500m" value in
  let cleared := CustomValuesForm.updateResources CustomValuesForm.Cpu EmptyString edited in
  CustomValuesForm.shown CustomValuesForm.Cpu edited = "500m"
  /\ CustomValuesForm.shown CustomValuesForm.Cpu cleared = EmptyString
  /\ HelmValues.structured_values cleared = HelmValues.structured_values value
  /\ DeployForm.hasCustomValues (DeployForm.filtered cleared)
     = DeployForm.hasCustomValues (DeployForm.filtered value)
  /\ HelmValues.build_helm_values (fun _ => Raises YAMLError)
       (CustomValuesForm.updateRawYaml EmptyString value)
     = Returns (HelmValues.structured_values value).
Proof.
  intros value.
  apply (cleared_fields_send_nothing CustomValuesForm.Cpu "500m" value
           (fun _ => Raises YAMLError)).
  reflexivity.
Defined.

